(** * Streaming voice activity detection of ayabunny (server/api/vad)

    A shallow embedding of the per-connection VAD engine:
    - [BaseVADProcessor] (server/api/vad/base.py): hysteresis counters and
      the [process] / [update_params] / [reset] methods;
    - [create_vad_processor], [get_chunk_size] and the [vad_websocket] loop
      (server/api/vad/__init__.py): frame buffering of the incoming bytes,
      control messages and backend hot swap.

    Python ints are [Z]; probabilities (Python floats compared with [>=])
    are [Q]; bytes objects are [list byte]. *)

From Stdlib Require Import ZArith QArith String Bool Lia Lqa.
From Stdlib Require Import Init.Byte.
From Stdlib Require Import List.
Import ListNotations.
Open Scope Z_scope.

(** ** base.py : BaseVADProcessor, the counters *)

Record vad_core := {
  threshold : Q;
  sample_rate : Z;
  min_speech_samples : Z;
  min_silence_samples : Z;
  is_speaking : bool;
  speech_samples : Z;
  silence_samples : Z
}.

(** [int(ms * self.sample_rate / 1000)]: the product is an integer and the
    float quotient is truncated towards zero. *)
Definition ms_to_samples (sr ms : Z) : Z := Z.quot (ms * sr) 1000.

(** [BaseVADProcessor.__init__] *)
Definition init_core (thr : Q) (min_speech_ms min_silence_ms : Z) : vad_core :=
  {| threshold := thr;
     sample_rate := 16000;
     min_speech_samples := ms_to_samples 16000 min_speech_ms;
     min_silence_samples := ms_to_samples 16000 min_silence_ms;
     is_speaking := false;
     speech_samples := 0;
     silence_samples := 0 |}.

(** [BaseVADProcessor.reset] (the counter part shared by every subclass) *)
Definition reset_core (c : vad_core) : vad_core :=
  {| threshold := threshold c;
     sample_rate := sample_rate c;
     min_speech_samples := min_speech_samples c;
     min_silence_samples := min_silence_samples c;
     is_speaking := false;
     speech_samples := 0;
     silence_samples := 0 |}.

Inductive vad_event := speech_start | speech_end.

(** The dict returned by [process]. *)
Record vad_result := {
  speech_prob : Q;
  is_speech : bool;
  event : option vad_event;
  res_is_speaking : bool
}.

(** [BaseVADProcessor.process] after [_get_speech_prob] returned
    [speech_prob]; [n] is [len(audio_chunk)]. *)
Definition core_process (c : vad_core) (speech_prob : Q) (n : Z)
  : vad_core * vad_result :=
  let is_speech := Qle_bool (threshold c) speech_prob in
  if is_speech then
    let speech := speech_samples c + n in
    let start := negb (is_speaking c) && (min_speech_samples c <=? speech) in
    let c' := {| threshold := threshold c;
                 sample_rate := sample_rate c;
                 min_speech_samples := min_speech_samples c;
                 min_silence_samples := min_silence_samples c;
                 is_speaking := if start then true else is_speaking c;
                 speech_samples := speech;
                 silence_samples := 0 |} in
    (c', {| speech_prob := speech_prob; is_speech := true;
            event := if start then Some speech_start else None;
            res_is_speaking := is_speaking c' |})
  else
    let silence := silence_samples c + n in
    let stop := is_speaking c && (min_silence_samples c <=? silence) in
    let c' := {| threshold := threshold c;
                 sample_rate := sample_rate c;
                 min_speech_samples := min_speech_samples c;
                 min_silence_samples := min_silence_samples c;
                 is_speaking := if stop then false else is_speaking c;
                 speech_samples := if stop then 0 else speech_samples c;
                 silence_samples := silence |} in
    (c', {| speech_prob := speech_prob; is_speech := false;
            event := if stop then Some speech_end else None;
            res_is_speaking := is_speaking c' |}).

(** [BaseVADProcessor.update_params] *)
Definition update_core (c : vad_core) (thr : option Q)
    (min_speech_ms min_silence_ms : option Z) : vad_core :=
  {| threshold := match thr with Some t => t | None => threshold c end;
     sample_rate := sample_rate c;
     min_speech_samples := match min_speech_ms with
                           | Some ms => ms_to_samples (sample_rate c) ms
                           | None => min_speech_samples c end;
     min_silence_samples := match min_silence_ms with
                            | Some ms => ms_to_samples (sample_rate c) ms
                            | None => min_silence_samples c end;
     is_speaking := is_speaking c;
     speech_samples := speech_samples c;
     silence_samples := silence_samples c |}.

(** A run of frames of [n] samples each, classified with the given
    probabilities, one [process] call per frame. *)
Fixpoint run_core (c : vad_core) (n : Z) (ps : list Q)
  : vad_core * list vad_result :=
  match ps with
  | [] => (c, [])
  | p :: ps' =>
      let '(c1, r) := core_process c p n in
      let '(c2, rs) := run_core c1 n ps' in
      (c2, r :: rs)
  end.

Definition events_of (rs : list vad_result) : list (option vad_event) :=
  map event rs.

Definition is_start (r : vad_result) : bool :=
  match event r with Some speech_start => true | _ => false end.

Definition is_end (r : vad_result) : bool :=
  match event r with Some speech_end => true | _ => false end.

Definition count_starts (rs : list vad_result) : nat := length (filter is_start rs).
Definition count_ends (rs : list vad_result) : nat := length (filter is_end rs).

(** ** __init__.py : the frame buffer of [vad_websocket]

    [audio_buffer += message["bytes"]], then
    [while len(audio_buffer) >= bytes_needed: chunk_bytes = audio_buffer[:bytes_needed];
     audio_buffer = audio_buffer[bytes_needed:]].  The loop runs on a fuel that
    exceeds the length of the buffer; [bytes_needed = chunk_size * 2] is
    positive for every chunk size of [get_chunk_size], so each round consumes
    at least one byte and the fuel never runs out. *)
Fixpoint take_frames (fuel : nat) (bytes_needed : nat) (audio_buffer : list byte)
  : list (list byte) * list byte :=
  match fuel with
  | O => ([], audio_buffer)
  | S fuel' =>
      if Nat.leb bytes_needed (length audio_buffer) then
        let chunk_bytes := firstn bytes_needed audio_buffer in
        let '(frames, rest) := take_frames fuel' bytes_needed (skipn bytes_needed audio_buffer) in
        (chunk_bytes :: frames, rest)
      else ([], audio_buffer)
  end.

(** One binary message: append, then slice off every complete frame. *)
Definition push (bytes_needed : nat) (audio_buffer chunk : list byte)
  : list (list byte) * list byte :=
  let buf := audio_buffer ++ chunk in
  take_frames (S (length buf)) bytes_needed buf.

(** A sequence of binary messages: the frames in arrival order and the
    final buffered tail. *)
Fixpoint push_all (bytes_needed : nat) (audio_buffer : list byte)
    (chunks : list (list byte)) : list (list byte) * list byte :=
  match chunks with
  | [] => ([], audio_buffer)
  | c :: cs =>
      let '(fs1, rest) := push bytes_needed audio_buffer c in
      let '(fs2, rest') := push_all bytes_needed rest cs in
      (fs1 ++ fs2, rest')
  end.

(** Reference slicing of a byte string into frames of [b] bytes, written
    from the spec (section 8, frame alignment): the [i]-th frame is
    [data[i*b : (i+1)*b]] for [i < len(data) // b]. *)
Definition slice_direct (b : nat) (data : list byte) : list (list byte) :=
  map (fun i => firstn b (skipn (i * b) data)) (seq 0 (length data / b)).

Definition tail_direct (b : nat) (data : list byte) : list byte :=
  skipn (length data / b * b) data.

(** ** Detection backends

    The four processor classes (TenVADProcessor, WebRTCVADProcessor,
    SileroTorchVADProcessor, SileroONNXVADProcessor) share
    [BaseVADProcessor]; they differ in their constructor (which loads the
    backend's model and may raise), in the backend part of [reset], and in
    [_get_speech_prob].  [backend_create name] is [None] when the
    constructor raises (model file or runtime missing); [get_speech_prob]
    is [None] when the classifier raises on the frame. *)
Class VADBackend (B : Type) := {
  backend_create : string -> option B;
  backend_reset : B -> B;
  get_speech_prob : B -> list byte -> option (Q * B)
}.

Record processor (B : Type) := {
  vad_kind : string;
  core : vad_core;
  backend_state : B
}.
Arguments vad_kind {B}.
Arguments core {B}.
Arguments backend_state {B}.

(** [CHUNK_SIZES] and [get_chunk_size] *)
Definition get_chunk_size (name : string) : nat :=
  if String.eqb name "ten" then 256
  else if String.eqb name "webrtc" then 480
  else if String.eqb name "silero_torch" then 512
  else if String.eqb name "silero_onnx" then 512
  else 512.

Definition is_implemented (name : string) : bool :=
  String.eqb name "ten" || String.eqb name "webrtc"
  || String.eqb name "silero_torch" || String.eqb name "silero_onnx".

(** Messages sent to the client by [websocket.send_json]. *)
Inductive boundary_event := SpeechStart (p : Q) | SpeechEnd (p : Q).

(** A text message after [json.loads]: the recognised fields, [None] when
    the key is absent. *)
Record config := {
  cfg_is_speaking : option bool;
  cfg_backend : option string;
  cfg_threshold : option Q;
  cfg_min_speech_ms : option Z;
  cfg_min_silence_ms : option Z;
  cfg_reset : option bool
}.

(** [websocket.receive()]: a text message whose JSON may not decode
    ([None]: [json.JSONDecodeError]), a text message whose JSON decodes to
    something other than an object ([[]], [1], [null], a string: then
    [config.get] raises [AttributeError]), or a binary message. *)
Inductive message := MText (cfg : option config) | MTextNotObject | MBytes (b : list byte).

Section Session.
Context {B : Type} `{VADBackend B}.

(** [create_vad_processor(backend, threshold, min_speech_ms, min_silence_ms)]:
    "funasr" raises NotImplementedError, an unknown name raises ValueError,
    and the four implemented names call the backend's constructor. *)
Definition create_vad_processor (name : string) (thr : Q)
    (min_speech_ms min_silence_ms : Z) : option (processor B) :=
  if is_implemented name then
    match backend_create name with
    | Some b => Some {| vad_kind := name; core := init_core thr min_speech_ms min_silence_ms;
                        backend_state := b |}
    | None => None
    end
  else None.

(** [processor.reset()] *)
Definition reset_processor (p : processor B) : processor B :=
  {| vad_kind := vad_kind p; core := reset_core (core p);
     backend_state := backend_reset (backend_state p) |}.

(** [processor.update_params(...)] *)
Definition update_params (p : processor B) (thr : option Q)
    (min_speech_ms min_silence_ms : option Z) : processor B :=
  {| vad_kind := vad_kind p; core := update_core (core p) thr min_speech_ms min_silence_ms;
     backend_state := backend_state p |}.

(** [processor.process(audio_float)]: the frame of [len(chunk_bytes) // 2]
    int16 samples is classified, then the counters are stepped.  [None]
    when [_get_speech_prob] raises. *)
Definition process (p : processor B) (chunk_bytes : list byte)
  : option (processor B * vad_result) :=
  match get_speech_prob (backend_state p) chunk_bytes with
  | None => None
  | Some (prob, b') =>
      let '(c', r) := core_process (core p) prob (Z.of_nat (length chunk_bytes / 2)) in
      Some ({| vad_kind := vad_kind p; core := c'; backend_state := b' |}, r)
  end.

(** The [send_json] calls made for one [process] result. *)
Definition emit (r : vad_result) : list boundary_event :=
  match event r with
  | Some speech_start => [SpeechStart (speech_prob r)]
  | Some speech_end => [SpeechEnd (speech_prob r)]
  | None => []
  end.

Record session := {
  backend : string;
  chunk_size : nat;
  vad_processor : processor B;
  audio_buffer : list byte;
  frame_count : nat
}.

(** State of the frame loop when it stops: the buffer is drained, or an
    exception escaped [process]. *)
Inductive loop_result :=
| LoopOk (p : processor B) (buf : list byte) (fc : nat)
| LoopErr (p : processor B) (buf : list byte) (fc : nat).

(** The [while len(audio_buffer) >= bytes_needed] loop with its call to
    [process] and the events it sends. *)
Fixpoint drain (fuel : nat) (bytes_needed : nat) (p : processor B)
    (audio_buffer : list byte) (fc : nat) : list boundary_event * loop_result :=
  match fuel with
  | O => ([], LoopOk p audio_buffer fc)
  | S fuel' =>
      if Nat.leb bytes_needed (length audio_buffer) then
        let fc' := S fc in
        let chunk_bytes := firstn bytes_needed audio_buffer in
        let rest := skipn bytes_needed audio_buffer in
        match process p chunk_bytes with
        | None => ([], LoopErr p rest fc')
        | Some (p', r) =>
            let '(evs, res) := drain fuel' bytes_needed p' rest fc' in
            (emit r ++ evs, res)
        end
      else ([], LoopOk p audio_buffer fc)
  end.

(** The same loop, seen as: first cut the frames, then process them in
    order ([rest] is the tail left by the cut). *)
Fixpoint process_frames (p : processor B) (fc : nat) (frames : list (list byte))
    (rest : list byte) : list boundary_event * loop_result :=
  match frames with
  | [] => ([], LoopOk p rest fc)
  | f :: fs =>
      match process p f with
      | None => ([], LoopErr p (concat fs ++ rest) (S fc))
      | Some (p', r) =>
          let '(evs, res) := process_frames p' (S fc) fs rest in
          (emit r ++ evs, res)
      end
  end.

(** Where the connection stands after a message: still in the receive
    loop, or out of it (the [finally] clause has run [vad_processor.reset()]). *)
Inductive outcome := Running (s : session) | Finished (s : session).

Definition with_processor (s : session) (p : processor B) : session :=
  {| backend := backend s; chunk_size := chunk_size s; vad_processor := p;
     audio_buffer := audio_buffer s; frame_count := frame_count s |}.

Definition finish (s : session) : outcome :=
  Finished (with_processor s (reset_processor (vad_processor s))).

Definition get_default {A} (o : option A) (d : A) : A :=
  match o with Some x => x | None => d end.

(** [if new_backend and new_backend != backend] *)
Definition switch_requested (s : session) (cfg : config) : bool :=
  match cfg_backend cfg with
  | Some nb => negb (String.eqb nb "") && negb (String.eqb nb (backend s))
  | None => false
  end.

(** The text-message branch of the receive loop. *)
Definition handle_text (s : session) (cfg : config) : outcome :=
  match cfg_is_speaking cfg with
  | Some false => finish s
  | _ =>
      let s1 :=
        if switch_requested s cfg then
          let nb := get_default (cfg_backend cfg) ""%string in
          match create_vad_processor nb (get_default (cfg_threshold cfg) (1#2))
                  (get_default (cfg_min_speech_ms cfg) 250)
                  (get_default (cfg_min_silence_ms cfg) 500) with
          | Some p =>
              {| backend := nb; chunk_size := get_chunk_size nb; vad_processor := p;
                 audio_buffer := audio_buffer s; frame_count := frame_count s |}
          | None => s
          end
        else
          with_processor s (update_params (vad_processor s) (cfg_threshold cfg)
                              (cfg_min_speech_ms cfg) (cfg_min_silence_ms cfg)) in
      let s2 :=
        match cfg_reset cfg with
        | Some true => with_processor s1 (reset_processor (vad_processor s1))
        | _ => s1
        end in
      Running s2
  end.

(** Where the frame loop leaves the connection. *)
Definition loop_outcome (s : session) (res : loop_result) : outcome :=
  match res with
  | LoopOk p buf' fc =>
      Running {| backend := backend s; chunk_size := chunk_size s;
                 vad_processor := p; audio_buffer := buf'; frame_count := fc |}
  | LoopErr p buf' fc =>
      finish {| backend := backend s; chunk_size := chunk_size s;
                vad_processor := p; audio_buffer := buf'; frame_count := fc |}
  end.

(** The binary-message branch of the receive loop.  An exception raised by
    [process] leaves the [while True] loop through [except Exception]. *)
Definition handle_bytes (s : session) (bytes : list byte)
  : list boundary_event * outcome :=
  let buf := audio_buffer s ++ bytes in
  let bytes_needed := (chunk_size s * 2)%nat in
  let '(evs, res) := drain (S (length buf)) bytes_needed (vad_processor s) buf (frame_count s) in
  (evs, loop_outcome s res).

(** One iteration of [while True: message = await websocket.receive() ...]. *)
Definition step (s : session) (m : message) : list boundary_event * outcome :=
  match m with
  | MText None => ([], Running s)
  | MText (Some cfg) => ([], handle_text s cfg)
  | MTextNotObject => ([], finish s)
  | MBytes bytes => handle_bytes s bytes
  end.

(** The receive loop fed a sequence of binary messages, one after the
    other; once it has left the loop no further message is read. *)
Fixpoint run_bytes (s : session) (bss : list (list byte)) : list boundary_event * outcome :=
  match bss with
  | [] => ([], Running s)
  | b :: bss' =>
      match step s (MBytes b) with
      | (e, Running s1) => let '(e2, o) := run_bytes s1 bss' in (e ++ e2, o)
      | (e, Finished s1) => (e, Finished s1)
      end
  end.

End Session.
Arguments session B : clear implicits.
Arguments outcome B : clear implicits.
Arguments loop_result B : clear implicits.

(** A scripted backend used to evaluate the session on concrete inputs:
    its state is the list of answers its classifier will give, [None]
    standing for a frame on which it raises; once the script is exhausted
    it answers 0. *)
Definition scripted_get_speech_prob (st : list (option Q)) (frame : list byte)
  : option (Q * list (option Q)) :=
  match st with
  | [] => Some (0%Q, [])
  | Some p :: st' => Some (p, st')
  | None :: _ => None
  end.

#[global] Instance scripted_backend : VADBackend (list (option Q)) := {|
  backend_create := fun _ => Some [];
  backend_reset := fun st => st;
  get_speech_prob := scripted_get_speech_prob
|}.

Definition scripted_session (name : string) (script : list (option Q))
    (buf : list byte) : session (list (option Q)) :=
  {| backend := name; chunk_size := get_chunk_size name;
     vad_processor := {| vad_kind := name; core := init_core (1#2) 250 500;
                         backend_state := script |};
     audio_buffer := buf; frame_count := 0 |}.

(** ** webrtc_vad.py : WebRTCVADProcessor._get_speech_prob

    From the int16 samples on: [webrtc_select] is the choice of the bytes
    handed to [self.vad.is_speech]; [is_speech] stands for the WebRTC call,
    [None] when it raises (it only accepts 10, 20 or 30 ms frames).  The
    history holds the values 1.0 and 0.0; sums of at most five of them are
    exact, and the smoothed value [sum / len] is taken as a rational. *)
Definition webrtc_select (audio_int16 : list Z) : list Z :=
  let frame_duration_ms := Z.of_nat (length audio_int16) * 1000 / 16000 in
  if existsb (Z.eqb frame_duration_ms) [10; 20; 30] then audio_int16
  else
    let frame_size := 480%nat in
    if Nat.leb frame_size (length audio_int16) then firstn frame_size audio_int16
    else
      let frame_size := 160%nat in
      if Nat.ltb (length audio_int16) frame_size then
        audio_int16 ++ repeat 0 (frame_size - length audio_int16)
      else firstn frame_size audio_int16.

Definition q_sum (l : list Q) : Q := fold_right Qplus 0%Q l.

Definition webrtc_history_size : nat := 5.

Definition webrtc_get_speech_prob (is_speech : list Z -> option bool)
    (history : list Q) (audio_int16 : list Z) : Q * list Q :=
  match is_speech (webrtc_select audio_int16) with
  | None => (match rev history with h :: _ => h | [] => 0%Q end, history)
  | Some b =>
      let h1 := history ++ [if b then 1%Q else 0%Q] in
      let h2 := if Nat.ltb webrtc_history_size (length h1) then tl h1 else h1 in
      (Qdiv (q_sum h2) (inject_Z (Z.of_nat (length h2))), h2)
  end.

(** Events of a run in the order they are produced. *)
Definition kinds_of (rs : list vad_result) : list vad_event :=
  flat_map (fun r => match event r with Some e => [e] | None => [] end) rs.

(** Starting from [speaking], the events alternate: a start only while
    silent, an end only while speaking. *)
Fixpoint alternating (speaking : bool) (evs : list vad_event) : bool :=
  match evs with
  | [] => true
  | speech_start :: evs' => negb speaking && alternating true evs'
  | speech_end :: evs' => speaking && alternating false evs'
  end.

Definition boundary_kind (e : boundary_event) : vad_event :=
  match e with SpeechStart _ => speech_start | SpeechEnd _ => speech_end end.

(** A text message with none of the recognised keys, and one with only
    [reset: true]. *)
Definition empty_config : config :=
  {| cfg_is_speaking := None; cfg_backend := None; cfg_threshold := None;
     cfg_min_speech_ms := None; cfg_min_silence_ms := None; cfg_reset := None |}.

Definition reset_config : config :=
  {| cfg_is_speaking := None; cfg_backend := None; cfg_threshold := None;
     cfg_min_speech_ms := None; cfg_min_silence_ms := None; cfg_reset := Some true |}.

(** A smoothing history of [1.0 if is_speech else 0.0] values. *)
Definition verdicts (h : list Q) : Prop := Forall (fun q => q = 0%Q \/ q = 1%Q) h.

(** The same text message without its [backend] key. *)
Definition drop_backend (cfg : config) : config :=
  {| cfg_is_speaking := cfg_is_speaking cfg; cfg_backend := None;
     cfg_threshold := cfg_threshold cfg; cfg_min_speech_ms := cfg_min_speech_ms cfg;
     cfg_min_silence_ms := cfg_min_silence_ms cfg; cfg_reset := cfg_reset cfg |}.

(** A switch to [webrtc] carrying a threshold and a minimum silence. *)
Definition switch_to_webrtc : config :=
  {| cfg_is_speaking := None; cfg_backend := Some "webrtc"%string;
     cfg_threshold := Some (3#5); cfg_min_speech_ms := None;
     cfg_min_silence_ms := Some 300; cfg_reset := None |}.

(** A stand-in for [vad.is_speech] that only accepts 30 ms frames. *)
Definition strict_is_speech (frame : list Z) : option bool :=
  if Nat.eqb (length frame) 480 then Some true else None.

(** * Properties *)

(** ** The boundary state machine *)

Definition high (c : vad_core) (p : Q) : Prop := Qle_bool (threshold c) p = true.
Definition low (c : vad_core) (p : Q) : Prop := Qle_bool (threshold c) p = false.

Lemma core_process_params c p n :
  threshold (fst (core_process c p n)) = threshold c /\
  min_speech_samples (fst (core_process c p n)) = min_speech_samples c /\
  min_silence_samples (fst (core_process c p n)) = min_silence_samples c.
Proof.
  unfold core_process.
  destruct (Qle_bool (threshold c) p); simpl; auto.
Qed.

Lemma run_core_app c n xs ys :
  run_core c n (xs ++ ys) =
  let '(c1, r1) := run_core c n xs in
  let '(c2, r2) := run_core c1 n ys in (c2, r1 ++ r2).
Proof.
  revert c; induction xs as [|x xs IH]; intros c; simpl.
  - destruct (run_core c n ys); reflexivity.
  - destruct (core_process c x n) as [c1 r] eqn:E1.
    rewrite IH.
    destruct (run_core c1 n xs) as [c2 r2].
    destruct (run_core c2 n ys) as [c3 r3]. reflexivity.
Qed.

Lemma count_starts_app r1 r2 : count_starts (r1 ++ r2) = (count_starts r1 + count_starts r2)%nat.
Proof. unfold count_starts. rewrite filter_app, length_app. reflexivity. Qed.

Lemma count_ends_app r1 r2 : count_ends (r1 ++ r2) = (count_ends r1 + count_ends r2)%nat.
Proof. unfold count_ends. rewrite filter_app, length_app. reflexivity. Qed.

Lemma count_starts_cons r rs :
  count_starts (r :: rs) = ((if is_start r then 1 else 0) + count_starts rs)%nat.
Proof. unfold count_starts; simpl. destruct (is_start r); reflexivity. Qed.

Lemma count_ends_cons r rs :
  count_ends (r :: rs) = ((if is_end r then 1 else 0) + count_ends rs)%nat.
Proof. unfold count_ends; simpl. destruct (is_end r); reflexivity. Qed.

(** A below-threshold frame never starts speech. *)
Lemma low_no_start c p n : low c p -> is_start (snd (core_process c p n)) = false.
Proof.
  unfold low, core_process; intros Hl; rewrite Hl; simpl.
  destruct (is_speaking c && (min_silence_samples c <=? silence_samples c + n)); reflexivity.
Qed.

(** An above-threshold frame never ends speech. *)
Lemma high_no_end c p n : high c p -> is_end (snd (core_process c p n)) = false.
Proof.
  unfold high, core_process; intros Hh; rewrite Hh; simpl.
  destruct (negb (is_speaking c) && (min_speech_samples c <=? speech_samples c + n)); reflexivity.
Qed.

Lemma lows_no_start c n ls :
  Forall (low c) ls -> count_starts (snd (run_core c n ls)) = 0%nat.
Proof.
  revert c; induction ls as [|l ls IH]; intros c Hls; [reflexivity|].
  inversion Hls as [|? ? Hl Hrest]; subst.
  simpl. destruct (core_process c l n) as [c1 r] eqn:E.
  destruct (run_core c1 n ls) as [c2 rs] eqn:E2. simpl.
  rewrite count_starts_cons.
  pose proof (low_no_start c l n Hl) as Hs; rewrite E in Hs; simpl in Hs; rewrite Hs.
  pose proof (core_process_params c l n) as [Ht _]; rewrite E in Ht; simpl in Ht.
  replace rs with (snd (run_core c1 n ls)) by (rewrite E2; reflexivity).
  apply IH. eapply Forall_impl; [|exact Hrest]. unfold low; intros a Ha; rewrite Ht; exact Ha.
Qed.

(** From [Silent], a run of above-threshold frames that does not reach
    [min_speech_samples] stays [Silent] and only accumulates. *)
Lemma highs_below_min c n hs :
  is_speaking c = false -> 0 <= n -> Forall (high c) hs ->
  speech_samples c + Z.of_nat (length hs) * n < min_speech_samples c ->
  let '(c', rs) := run_core c n hs in
  is_speaking c' = false /\ speech_samples c' = speech_samples c + Z.of_nat (length hs) * n /\
  threshold c' = threshold c /\ min_speech_samples c' = min_speech_samples c /\
  count_starts rs = 0%nat.
Proof.
  revert c; induction hs as [|h hs IH]; intros c Hs Hn Hhs Hlt.
  - simpl. repeat split; auto; lia.
  - inversion Hhs as [|? ? Hh Hrest]; subst.
    rewrite length_cons, Nat2Z.inj_succ in Hlt |- *.
    pose proof (Zle_0_nat (length hs)) as Hlen.
    assert (Hnn : 0 <= Z.of_nat (length hs) * n) by nia.
    cbn [run_core]. destruct (core_process c h n) as [c1 r] eqn:E.
    assert (Hc1 : is_speaking c1 = false /\ speech_samples c1 = speech_samples c + n /\
                  threshold c1 = threshold c /\ min_speech_samples c1 = min_speech_samples c /\
                  is_start r = false).
    { unfold core_process in E. unfold high in Hh. rewrite Hh, Hs in E. simpl in E.
      assert (Hb : (min_speech_samples c <=? speech_samples c + n) = false)
        by (apply Z.leb_gt; nia).
      rewrite Hb in E. inversion E; subst; simpl. repeat split; auto. }
    destruct Hc1 as (Hs1 & Hsp1 & Ht1 & Hm1 & Hst).
    specialize (IH c1 Hs1 Hn).
    destruct (run_core c1 n hs) as [c2 rs] eqn:E2.
    destruct IH as (Hs2 & Hsp2 & Ht2 & Hm2 & Hc2).
    + eapply Forall_impl; [|exact Hrest]. unfold high; intros a Ha; rewrite Ht1; exact Ha.
    + rewrite Hsp1, Hm1. nia.
    + cbv iota beta. rewrite count_starts_cons, Hst, Hc2.
      repeat split; auto; try congruence; nia.
Qed.

Lemma high_keeps_speaking c p n :
  is_speaking c = true -> high c p ->
  is_speaking (fst (core_process c p n)) = true /\ is_start (snd (core_process c p n)) = false.
Proof.
  unfold high, core_process; intros Hs Hh; rewrite Hh, Hs; simpl. auto.
Qed.

Lemma low_keeps_silent c p n :
  is_speaking c = false -> low c p ->
  is_speaking (fst (core_process c p n)) = false /\ is_end (snd (core_process c p n)) = false.
Proof.
  unfold low, core_process; intros Hs Hl; rewrite Hl, Hs; simpl. auto.
Qed.

Lemma speaking_highs c n ps :
  is_speaking c = true -> Forall (high c) ps ->
  count_starts (snd (run_core c n ps)) = 0%nat /\ is_speaking (fst (run_core c n ps)) = true.
Proof.
  revert c; induction ps as [|p ps IH]; intros c Hs Hps; [simpl; auto|].
  inversion Hps as [|? ? Hh Hrest]; subst.
  pose proof (high_keeps_speaking c p n Hs Hh) as [Hs1 Hst].
  pose proof (core_process_params c p n) as [Ht _].
  cbn [run_core]. destruct (core_process c p n) as [c1 r] eqn:E. simpl in *.
  destruct (IH c1 Hs1) as [IH1 IH2].
  { eapply Forall_impl; [|exact Hrest]. unfold high; intros a Ha; rewrite Ht; exact Ha. }
  destruct (run_core c1 n ps) as [c2 rs]. simpl in *.
  rewrite count_starts_cons, Hst, IH1. auto.
Qed.

Lemma silent_lows c n ps :
  is_speaking c = false -> Forall (low c) ps ->
  count_ends (snd (run_core c n ps)) = 0%nat /\ is_speaking (fst (run_core c n ps)) = false.
Proof.
  revert c; induction ps as [|p ps IH]; intros c Hs Hps; [simpl; auto|].
  inversion Hps as [|? ? Hl Hrest]; subst.
  pose proof (low_keeps_silent c p n Hs Hl) as [Hs1 Hen].
  pose proof (core_process_params c p n) as [Ht _].
  cbn [run_core]. destruct (core_process c p n) as [c1 r] eqn:E. simpl in *.
  destruct (IH c1 Hs1) as [IH1 IH2].
  { eapply Forall_impl; [|exact Hrest]. unfold low; intros a Ha; rewrite Ht; exact Ha. }
  destruct (run_core c1 n ps) as [c2 rs]. simpl in *.
  rewrite count_ends_cons, Hen, IH1. auto.
Qed.

(** C1.  An above-threshold frame adds its sample count to
    [speech_samples] and zeroes [silence_samples]; from [Silent], once
    [speech_samples] reaches [min_speech_samples] the processor turns
    [Speaking] and exactly one [SpeechStart] carrying the frame's
    probability is sent.  Consequently, from a fresh [Silent] state, a run
    of above-threshold frames totalling [min_speech_samples - 1] samples
    followed by below-threshold frames sends no [SpeechStart], and the same
    run extended by one more above-threshold frame sends exactly one. *)
Theorem speech_frame_hysteresis :
  (forall c p n, high c p ->
     let '(c', r) := core_process c p n in
     speech_samples c' = speech_samples c + n /\ silence_samples c' = 0 /\
     (is_speaking c = false -> min_speech_samples c <= speech_samples c + n ->
        is_speaking c' = true /\ event r = Some speech_start /\ emit r = [SpeechStart p])) /\
  (forall c n hs ls, is_speaking c = false -> speech_samples c = 0 -> 0 < n ->
     Forall (high c) hs -> Z.of_nat (length hs) * n = min_speech_samples c - 1 ->
     Forall (low c) ls ->
     count_starts (snd (run_core c n (hs ++ ls))) = 0%nat /\
     (forall h, high c h -> count_starts (snd (run_core c n (hs ++ h :: ls))) = 1%nat)).
Proof.
  split.
  - intros c p n Hh. unfold high, core_process in *. rewrite Hh. simpl.
    split; [reflexivity|]. split; [reflexivity|].
    intros Hs Hle. rewrite Hs. apply Z.leb_le in Hle. rewrite Hle. simpl. auto.
  - intros c n hs ls Hs H0 Hn Hhs Hlen Hls.
    pose proof (highs_below_min c n hs Hs ltac:(lia) Hhs ltac:(lia)) as Hrun.
    destruct (run_core c n hs) as [c2 rs] eqn:E2.
    destruct Hrun as (Hs2 & Hsp2 & Ht2 & Hm2 & Hc2).
    assert (Hls2 : Forall (low c2) ls).
    { eapply Forall_impl; [|exact Hls]. unfold low; intros a Ha; rewrite Ht2; exact Ha. }
    split.
    + rewrite run_core_app, E2.
      pose proof (lows_no_start c2 n ls Hls2) as Hl.
      destruct (run_core c2 n ls) as [c3 rs3]. simpl in *.
      rewrite count_starts_app, Hc2, Hl. reflexivity.
    + intros h Hh. rewrite run_core_app, E2. cbn [run_core].
      destruct (core_process c2 h n) as [c3 r] eqn:E3.
      assert (Hr : is_start r = true /\ threshold c3 = threshold c2).
      { unfold core_process in E3. unfold high in Hh. rewrite <- Ht2 in Hh. rewrite Hh, Hs2 in E3.
        assert (Hb : (min_speech_samples c2 <=? speech_samples c2 + n) = true)
          by (apply Z.leb_le; lia).
        simpl in E3. rewrite Hb in E3. inversion E3; subst; simpl. auto. }
      destruct Hr as [Hr Ht3].
      assert (Hls3 : Forall (low c3) ls).
      { eapply Forall_impl; [|exact Hls2]. unfold low; intros a Ha; rewrite Ht3; exact Ha. }
      pose proof (lows_no_start c3 n ls Hls3) as Hl.
      destruct (run_core c3 n ls) as [c4 rs4]. simpl in *.
      rewrite count_starts_app, count_starts_cons, Hc2, Hr, Hl. reflexivity.
Qed.

(** C5.  Session parameters threshold 0.5, 250 ms, 500 ms at 16 kHz give
    4000 and 8000 samples; nine 512-sample frames at 0.9 send
    [speech_start] on the 8th frame only, then sixteen frames at 0.1 send
    [speech_end] on the 16th frame only. *)
Theorem end_to_end_scenario :
  let c0 := init_core (1#2) 250 500 in
  min_speech_samples c0 = 4000 /\ min_silence_samples c0 = 8000 /\
  let '(c1, rs1) := run_core c0 512 (repeat (9#10) 9) in
  let '(c2, rs2) := run_core c1 512 (repeat (1#10) 16) in
  events_of rs1 = repeat None 7 ++ [Some speech_start; None] /\
  speech_samples (fst (run_core c0 512 (repeat (9#10) 8))) = 4096 /\
  events_of rs2 = repeat None 15 ++ [Some speech_end] /\
  is_speaking c2 = false.
Proof. vm_compute. repeat split; reflexivity. Qed.

(** C7.  From [Speaking], above-threshold frames never send another
    [speech_start]; from [Silent], below-threshold frames never send
    [speech_end]; a frame sends an event exactly when it flips
    [is_speaking]. *)
Theorem no_duplicate_events :
  (forall c n ps, is_speaking c = true -> Forall (high c) ps ->
     count_starts (snd (run_core c n ps)) = 0%nat /\ is_speaking (fst (run_core c n ps)) = true) /\
  (forall c n ps, is_speaking c = false -> Forall (low c) ps ->
     count_ends (snd (run_core c n ps)) = 0%nat /\ is_speaking (fst (run_core c n ps)) = false) /\
  (forall c p n, event (snd (core_process c p n)) <> None <->
     is_speaking (fst (core_process c p n)) <> is_speaking c).
Proof.
  split; [exact speaking_highs|]. split; [exact silent_lows|].
  intros c p n. unfold core_process.
  destruct (Qle_bool (threshold c) p), (is_speaking c);
  [| destruct (min_speech_samples c <=? speech_samples c + n)
   | destruct (min_silence_samples c <=? silence_samples c + n) |];
  simpl; split; intros H; congruence.
Qed.

(** C8 (as the code does it).  When a frame turns the processor
    [Speaking], [silence_samples] is 0 and [speech_samples] keeps the
    accumulated count, at least [min_speech_samples]; when a frame turns it
    [Silent], [speech_samples] is 0 and [silence_samples] keeps the
    accumulated count, at least [min_silence_samples]. *)
Theorem transition_counters (c : vad_core) (p : Q) (n : Z) :
  let '(c', r) := core_process c p n in
  (is_speaking c = false -> is_speaking c' = true ->
     silence_samples c' = 0 /\ speech_samples c' = speech_samples c + n /\
     min_speech_samples c <= speech_samples c') /\
  (is_speaking c = true -> is_speaking c' = false ->
     speech_samples c' = 0 /\ silence_samples c' = silence_samples c + n /\
     min_silence_samples c <= silence_samples c').
Proof.
  unfold core_process.
  destruct (Qle_bool (threshold c) p), (is_speaking c) eqn:Hs;
  [| destruct (min_speech_samples c <=? speech_samples c + n) eqn:Hb
   | destruct (min_silence_samples c <=? silence_samples c + n) eqn:Hb |];
  simpl; split; intros H1 H2; try discriminate;
  try (apply Z.leb_le in Hb); auto.
Qed.

(** C8, the claim as stated fails: with [min_speech_samples = 512] (32 ms),
    one 512-sample frame at 0.9 turns a fresh processor [Speaking] while
    [speech_samples] is left at 512, not reset to 0. *)
Lemma transition_counters_not_both_reset :
  let c0 := init_core (1#2) 32 500 in
  let c1 := fst (core_process c0 (9#10) 512) in
  is_speaking c0 = false /\ is_speaking c1 = true /\ speech_samples c1 = 512 /\
  ~ (speech_samples c1 = 0 /\ silence_samples c1 = 0).
Proof. vm_compute. repeat split; try reflexivity. intros [H _]; discriminate. Qed.

(** C10.  In [Silent] a below-threshold frame leaves [speech_samples]
    unchanged; [speech_samples] only decreases on the [Speaking] to
    [Silent] transition (where it becomes 0) or on [reset]; every
    above-threshold frame zeroes [silence_samples].  So speech evidence
    accumulates across frames separated by silence (with 32 ms, i.e. 512
    samples, two 256-sample speech frames around a silence frame start
    speech), while silence evidence must be contiguous. *)
Theorem speech_evidence_accumulates (c : vad_core) (p : Q) (n : Z) :
  0 <= n ->
  let '(c', r) := core_process c p n in
  (is_speaking c = false -> low c p -> speech_samples c' = speech_samples c) /\
  (high c p -> silence_samples c' = 0) /\
  (speech_samples c' < speech_samples c ->
     is_speaking c = true /\ is_speaking c' = false /\ speech_samples c' = 0) /\
  speech_samples (reset_core c) = 0 /\
  events_of (snd (run_core (init_core (1#2) 32 500) 256 [9#10; 1#10; 9#10]))
    = [None; None; Some speech_start].
Proof.
  intros Hn. unfold low, high, core_process.
  destruct (Qle_bool (threshold c) p) eqn:Hq, (is_speaking c) eqn:Hs;
  [| destruct (min_speech_samples c <=? speech_samples c + n) eqn:Hb
   | destruct (min_silence_samples c <=? silence_samples c + n) eqn:Hb |];
  simpl; (split; [intros; try discriminate; reflexivity|]);
  (split; [intros; try discriminate; reflexivity|]);
  (split; [intros; try lia; auto|]); split; reflexivity.
Qed.

Lemma speech_evidence_accumulates_witness :
  0 <= 256 /\
  (let '(c', r) := core_process (init_core (1#2) 32 500) (1#10) 256 in
   (is_speaking (init_core (1#2) 32 500) = false -> low (init_core (1#2) 32 500) (1#10) ->
      speech_samples c' = speech_samples (init_core (1#2) 32 500)) /\
   (high (init_core (1#2) 32 500) (1#10) -> silence_samples c' = 0) /\
   (speech_samples c' < speech_samples (init_core (1#2) 32 500) ->
      is_speaking (init_core (1#2) 32 500) = true /\ is_speaking c' = false /\ speech_samples c' = 0) /\
   speech_samples (reset_core (init_core (1#2) 32 500)) = 0 /\
   events_of (snd (run_core (init_core (1#2) 32 500) 256 [9#10; 1#10; 9#10]))
     = [None; None; Some speech_start]).
Proof.
  split; [lia|]. exact (speech_evidence_accumulates (init_core (1#2) 32 500) (1#10) 256 ltac:(lia)).
Defined.

(** ** The frame buffer *)

Lemma take_frames_concat fuel bn buf :
  concat (fst (take_frames fuel bn buf)) ++ snd (take_frames fuel bn buf) = buf.
Proof.
  revert buf; induction fuel as [|fuel IH]; intros buf; [reflexivity|].
  simpl. destruct (Nat.leb bn (length buf)); [|reflexivity].
  specialize (IH (skipn bn buf)).
  destruct (take_frames fuel bn (skipn bn buf)) as [fs rest]; simpl in *.
  rewrite <- app_assoc, IH. apply firstn_skipn.
Qed.

Lemma take_frames_rest_length fuel bn buf :
  (length (snd (take_frames fuel bn buf)) <= length buf)%nat.
Proof.
  rewrite <- (take_frames_concat fuel bn buf) at 2. rewrite length_app. lia.
Qed.

Lemma take_frames_fuel bn buf f1 f2 :
  (0 < bn)%nat -> (length buf < f1)%nat -> (length buf < f2)%nat ->
  take_frames f1 bn buf = take_frames f2 bn buf.
Proof.
  intros Hb; revert buf f2; induction f1 as [|f1 IH]; intros buf f2 H1 H2; [lia|].
  destruct f2 as [|f2]; [lia|]. simpl.
  destruct (Nat.leb bn (length buf)) eqn:Hle; [|reflexivity].
  apply Nat.leb_le in Hle.
  rewrite (IH (skipn bn buf) f2); [reflexivity| |]; rewrite length_skipn; lia.
Qed.

Lemma take_frames_shape fuel bn buf :
  (0 < bn)%nat -> (length buf < fuel)%nat ->
  Forall (fun f => length f = bn) (fst (take_frames fuel bn buf)) /\
  (length (snd (take_frames fuel bn buf)) < bn)%nat.
Proof.
  intros Hb; revert buf; induction fuel as [|fuel IH]; intros buf Hf; [lia|].
  simpl. destruct (Nat.leb bn (length buf)) eqn:Hle.
  - apply Nat.leb_le in Hle.
    destruct (IH (skipn bn buf)) as [IH1 IH2]; [rewrite length_skipn; lia|].
    destruct (take_frames fuel bn (skipn bn buf)) as [fs rest]; simpl in *.
    split; [|exact IH2]. constructor; [|exact IH1].
    rewrite length_firstn. lia.
  - apply Nat.leb_gt in Hle. simpl. auto.
Qed.

Lemma take_frames_S fuel bn buf :
  take_frames (S fuel) bn buf =
  if Nat.leb bn (length buf) then
    let '(frames, rest) := take_frames fuel bn (skipn bn buf) in
    (firstn bn buf :: frames, rest)
  else ([], buf).
Proof. reflexivity. Qed.

Lemma take_frames_app bn x y fuel :
  (0 < bn)%nat -> (length (x ++ y) < fuel)%nat ->
  take_frames fuel bn (x ++ y) =
  let '(fs1, r1) := take_frames fuel bn x in
  let '(fs2, r2) := take_frames fuel bn (r1 ++ y) in
  (fs1 ++ fs2, r2).
Proof.
  intros Hb; revert x; induction fuel as [|fuel IH]; intros x Hf; [lia|].
  rewrite length_app in Hf.
  rewrite (take_frames_S fuel bn (x ++ y)), (take_frames_S fuel bn x).
  destruct (Nat.leb bn (length x)) eqn:Hx.
  - apply Nat.leb_le in Hx.
    assert (Hxy : Nat.leb bn (length (x ++ y)) = true)
      by (apply Nat.leb_le; rewrite length_app; lia).
    rewrite Hxy.
    rewrite firstn_app, skipn_app.
    replace (bn - length x)%nat with 0%nat by lia. cbn [firstn skipn]. rewrite app_nil_r.
    rewrite IH by (rewrite length_app, length_skipn; lia).
    pose proof (take_frames_rest_length fuel bn (skipn bn x)) as Hr.
    rewrite length_skipn in Hr.
    destruct (take_frames fuel bn (skipn bn x)) as [fs1 r1]. simpl in Hr.
    rewrite (take_frames_fuel bn (r1 ++ y) fuel (S fuel)) by (try rewrite length_app; lia).
    destruct (take_frames (S fuel) bn (r1 ++ y)) as [fs2 r2]. reflexivity.
  - rewrite <- (take_frames_S fuel bn (x ++ y)).
    destruct (take_frames (S fuel) bn (x ++ y)). reflexivity.
Qed.

Lemma push_all_take bn r cs :
  (0 < bn)%nat -> (length r < bn)%nat ->
  push_all bn r cs = take_frames (S (length (r ++ concat cs))) bn (r ++ concat cs).
Proof.
  intros Hb; revert r; induction cs as [|c cs IH]; intros r Hr.
  - simpl. rewrite app_nil_r.
    assert (Hl : Nat.leb bn (length r) = false) by (apply Nat.leb_gt; lia).
    rewrite Hl. reflexivity.
  - cbn [push_all concat]. unfold push.
    pose proof (take_frames_shape (S (length (r ++ c))) bn (r ++ c) Hb ltac:(lia)) as [_ Hr1].
    rewrite app_assoc.
    rewrite (take_frames_app bn (r ++ c) (concat cs)) by lia.
    rewrite (take_frames_fuel bn (r ++ c) (S (length ((r ++ c) ++ concat cs)))
               (S (length (r ++ c)))) by (rewrite ?length_app; lia).
    pose proof (take_frames_rest_length (S (length (r ++ c))) bn (r ++ c)) as Hr2.
    destruct (take_frames (S (length (r ++ c))) bn (r ++ c)) as [fs1 r1]. cbn [fst snd] in Hr1, Hr2. cbv beta iota.
    rewrite (IH r1 Hr1).
    rewrite (take_frames_fuel bn (r1 ++ concat cs) (S (length ((r ++ c) ++ concat cs)))
               (S (length (r1 ++ concat cs)))) by (rewrite !length_app in *; lia).
    destruct (take_frames (S (length (r1 ++ concat cs))) bn (r1 ++ concat cs)). reflexivity.
Qed.

Lemma take_frames_direct bn buf fuel :
  (0 < bn)%nat -> (length buf < fuel)%nat ->
  take_frames fuel bn buf = (slice_direct bn buf, tail_direct bn buf).
Proof.
  intros Hb; revert buf; induction fuel as [|fuel IH]; intros buf Hf; [lia|].
  cbn [take_frames]. unfold slice_direct, tail_direct.
  destruct (Nat.leb bn (length buf)) eqn:Hle.
  - apply Nat.leb_le in Hle.
    rewrite IH by (rewrite length_skipn; lia).
    unfold slice_direct, tail_direct. rewrite length_skipn.
    assert (Hd : (length buf / bn = S ((length buf - bn) / bn))%nat).
    { replace (length buf) with (1 * bn + (length buf - bn))%nat at 1 by lia.
      rewrite Nat.div_add_l by lia. reflexivity. }
    rewrite Hd. cbn [seq map]. rewrite <- seq_shift, map_map.
    f_equal; [f_equal|].
    + apply map_ext. intros i. f_equal.
      rewrite skipn_skipn. f_equal. lia.
    + rewrite skipn_skipn. f_equal. lia.
  - apply Nat.leb_gt in Hle. rewrite Nat.div_small by lia. reflexivity.
Qed.

(** C2.  Whatever the byte boundaries of the binary messages, the frames
    cut from a fresh buffer are exactly the consecutive [bytes_needed]-byte
    slices of the concatenated bytes, in order, [len(data) // bytes_needed]
    of them, each of [bytes_needed] bytes; the remainder, shorter than one
    frame, stays buffered; no byte is dropped or duplicated. *)
Theorem frame_alignment (bytes_needed : nat) (chunks : list (list byte)) :
  (0 < bytes_needed)%nat ->
  let data := concat chunks in
  let '(frames, rest) := push_all bytes_needed [] chunks in
  frames = slice_direct bytes_needed data /\ rest = tail_direct bytes_needed data /\
  length frames = (length data / bytes_needed)%nat /\
  Forall (fun f => length f = bytes_needed) frames /\
  (length rest < bytes_needed)%nat /\ concat frames ++ rest = data.
Proof.
  intros Hb data.
  rewrite (push_all_take bytes_needed [] chunks Hb) by (simpl; lia). simpl app.
  fold data.
  pose proof (take_frames_concat (S (length data)) bytes_needed data) as Hc.
  pose proof (take_frames_shape (S (length data)) bytes_needed data Hb ltac:(lia)) as [Hs1 Hs2].
  pose proof (take_frames_direct bytes_needed data (S (length data)) Hb ltac:(lia)) as Hd.
  destruct (take_frames (S (length data)) bytes_needed data) as [frames rest].
  injection Hd as Hd1 Hd2. simpl in *.
  repeat split; auto.
  rewrite Hd1. unfold slice_direct. rewrite length_map, length_seq. reflexivity.
Qed.

(** ** The session loop *)

Section SessionProps.
Context {B : Type} `{VADBackend B}.

Lemma drain_take fuel bn (p : processor B) buf fc :
  drain fuel bn p buf fc =
  let '(frames, rest) := take_frames fuel bn buf in process_frames p fc frames rest.
Proof.
  revert p buf fc; induction fuel as [|fuel IH]; intros p buf fc; [reflexivity|].
  rewrite take_frames_S. cbn [drain].
  destruct (Nat.leb bn (length buf)); [|reflexivity].
  pose proof (take_frames_concat fuel bn (skipn bn buf)) as Hc.
  destruct (take_frames fuel bn (skipn bn buf)) as [fs rest] eqn:E. simpl in Hc.
  cbn [process_frames]. destruct (process p (firstn bn buf)) as [[p' r]|].
  - rewrite IH, E. reflexivity.
  - rewrite Hc. reflexivity.
Qed.

Lemma process_frames_app (p : processor B) fc xs ys rest :
  process_frames p fc (xs ++ ys) rest =
  let '(evs1, res1) := process_frames p fc xs (concat ys ++ rest) in
  match res1 with
  | LoopOk p' _ fc' => let '(evs2, res2) := process_frames p' fc' ys rest in (evs1 ++ evs2, res2)
  | LoopErr _ _ _ => (evs1, res1)
  end.
Proof.
  revert p fc; induction xs as [|x xs IH]; intros p fc.
  - simpl. destruct (process_frames p fc ys rest). reflexivity.
  - cbn [app process_frames]. destruct (process p x) as [[p' r]|].
    + rewrite IH. destruct (process_frames p' (S fc) xs (concat ys ++ rest)) as [evs1 res1].
      destruct res1 as [p1 b1 f1|p1 b1 f1]; [|reflexivity].
      destruct (process_frames p1 f1 ys rest). rewrite app_assoc. reflexivity.
    + rewrite concat_app, <- app_assoc. reflexivity.
Qed.

Lemma process_frames_rest (p0 : processor B) fc0 xs e p' fc' r :
  process_frames p0 fc0 xs [] = (e, LoopOk p' [] fc') ->
  process_frames p0 fc0 xs r = (e, LoopOk p' r fc').
Proof.
  revert p0 fc0 e; induction xs as [|x xs IH]; intros p0 fc0 e E.
  - simpl in *. inversion E; subst. reflexivity.
  - cbn [process_frames] in *. destruct (process p0 x) as [[p1 r1]|]; [|discriminate].
    destruct (process_frames p1 (S fc0) xs []) as [e1 res1] eqn:E1.
    inversion E; subst.
    rewrite (IH p1 (S fc0) e1 E1). reflexivity.
Qed.

Lemma handle_text_not_finished s cfg :
  cfg_is_speaking cfg <> Some false ->
  @handle_text B _ s cfg =
  Running
    (let s1 :=
       if switch_requested s cfg then
         let nb := get_default (cfg_backend cfg) ""%string in
         match create_vad_processor nb (get_default (cfg_threshold cfg) (1#2))
                 (get_default (cfg_min_speech_ms cfg) 250)
                 (get_default (cfg_min_silence_ms cfg) 500) with
         | Some p =>
             {| backend := nb; chunk_size := get_chunk_size nb; vad_processor := p;
                audio_buffer := audio_buffer s; frame_count := frame_count s |}
         | None => s
         end
       else
         with_processor s (update_params (vad_processor s) (cfg_threshold cfg)
                             (cfg_min_speech_ms cfg) (cfg_min_silence_ms cfg)) in
     match cfg_reset cfg with
     | Some true => with_processor s1 (reset_processor (vad_processor s1))
     | _ => s1
     end).
Proof.
  intros Hsp. unfold handle_text.
  destruct (cfg_is_speaking cfg) as [[|]|]; [reflexivity|congruence|reflexivity].
Qed.

Lemma step_bytes_unfold (s : session B) bytes :
  step s (MBytes bytes) =
  let buf := audio_buffer s ++ bytes in
  let '(frames, rest) := take_frames (S (length buf)) (chunk_size s * 2) buf in
  let '(evs, res) := process_frames (vad_processor s) (frame_count s) frames rest in
  (evs, loop_outcome s res).
Proof.
  cbn [step]. unfold handle_bytes. rewrite drain_take.
  destruct (take_frames _ _ _) as [frames rest].
  destruct (process_frames _ _ _ _). reflexivity.
Qed.

Lemma process_frames_ok (p : processor B) fc frames rest evs p' rest' fc' :
  process_frames p fc frames rest = (evs, LoopOk p' rest' fc') ->
  rest' = rest /\ fc' = (fc + length frames)%nat.
Proof.
  revert p fc evs; induction frames as [|f fs IH]; intros p fc evs E.
  - simpl in E. inversion E; subst. simpl. split; [reflexivity|lia].
  - cbn [process_frames] in E. destruct (process p f) as [[p1 r1]|]; [|discriminate].
    destruct (process_frames p1 (S fc) fs rest) as [e1 res1] eqn:E1.
    inversion E; subst.
    destruct (IH p1 (S fc) e1 E1) as [IH1 IH2]. simpl. split; [exact IH1|lia].
Qed.

Lemma process_frames_rest_any (p0 : processor B) fc0 xs e p' fc' r r' :
  process_frames p0 fc0 xs r = (e, LoopOk p' r fc') ->
  process_frames p0 fc0 xs r' = (e, LoopOk p' r' fc').
Proof.
  revert p0 fc0 e; induction xs as [|x xs IH]; intros p0 fc0 e E.
  - simpl in *. inversion E; subst. reflexivity.
  - cbn [process_frames] in *. destruct (process p0 x) as [[p1 r1]|]; [|discriminate].
    destruct (process_frames p1 (S fc0) xs r) as [e1 res1] eqn:E1.
    inversion E; subst.
    rewrite (IH p1 (S fc0) e1 E1). reflexivity.
Qed.

Lemma take_frames_full_app bn x y :
  (0 < bn)%nat ->
  take_frames (S (length (x ++ y))) bn (x ++ y) =
  let '(fs1, r1) := take_frames (S (length x)) bn x in
  let '(fs2, r2) := take_frames (S (length (r1 ++ y))) bn (r1 ++ y) in
  (fs1 ++ fs2, r2).
Proof.
  intros Hb.
  rewrite (take_frames_app bn x y) by lia.
  rewrite (take_frames_fuel bn x (S (length (x ++ y))) (S (length x)))
    by (rewrite ?length_app; lia).
  pose proof (take_frames_rest_length (S (length x)) bn x) as Hr.
  destruct (take_frames (S (length x)) bn x) as [fs1 r1]. simpl in Hr.
  rewrite (take_frames_fuel bn (r1 ++ y) (S (length (x ++ y))) (S (length (r1 ++ y))))
    by (rewrite ?length_app in *; lia).
  reflexivity.
Qed.

Lemma process_frames_err_rest (p0 : processor B) fc0 xs r r' e p' q fc' :
  process_frames p0 fc0 xs r = (e, LoopErr p' q fc') ->
  exists q', process_frames p0 fc0 xs r' = (e, LoopErr p' q' fc').
Proof.
  revert p0 fc0 e; induction xs as [|x xs IH]; intros p0 fc0 e E.
  - simpl in E. discriminate.
  - cbn [process_frames] in *. destruct (process p0 x) as [[p1 r1]|].
    + destruct (process_frames p1 (S fc0) xs r) as [e1 res1] eqn:E1.
      inversion E; subst.
      destruct (IH p1 (S fc0) e1 E1) as [q' Hq]. rewrite Hq. eexists; reflexivity.
    + inversion E; subst. eexists; reflexivity.
Qed.

Lemma get_chunk_size_pos (name : string) : (0 < get_chunk_size name)%nat.
Proof.
  unfold get_chunk_size.
  destruct (String.eqb name "ten"), (String.eqb name "webrtc"),
    (String.eqb name "silero_torch"), (String.eqb name "silero_onnx"); lia.
Qed.

Lemma step_bytes_running_same (s s1 : session B) b e :
  step s (MBytes b) = (e, Running s1) ->
  backend s1 = backend s /\ chunk_size s1 = chunk_size s.
Proof.
  intros E. rewrite step_bytes_unfold in E. cbv zeta in E.
  destruct (take_frames _ _ _) as [frames rest].
  destruct (process_frames _ _ _ _) as [x [p' q c|p' q c]]; [|discriminate].
  inversion E; subst. split; reflexivity.
Qed.

(** A binary message whose bytes are those of two messages, the first of
    which leaves the session running, gives the events of the first
    followed by those of the second, and the second's outcome. *)
Lemma step_bytes_app_running (s s1 : session B) b1 b2 e1 :
  (0 < chunk_size s)%nat ->
  step s (MBytes b1) = (e1, Running s1) ->
  step s (MBytes (b1 ++ b2)) = let '(e2, o) := step s1 (MBytes b2) in (e1 ++ e2, o).
Proof.
  intros Hc E1.
  rewrite step_bytes_unfold in E1 |- *. rewrite (step_bytes_unfold s1). cbv zeta in *.
  rewrite app_assoc, take_frames_full_app by lia.
  destruct (take_frames (S (length (audio_buffer s ++ b1))) (chunk_size s * 2)
              (audio_buffer s ++ b1)) as [fs1 r1].
  destruct (process_frames (vad_processor s) (frame_count s) fs1 r1)
    as [x1 [p1 q1 c1|p1 q1 c1]] eqn:P1; [|discriminate].
  destruct (process_frames_ok _ _ _ _ _ _ _ _ P1) as [Hq1 _]. subst q1.
  inversion E1; subst. clear E1.
  cbn [audio_buffer chunk_size vad_processor frame_count].
  destruct (take_frames (S (length (r1 ++ b2))) (chunk_size s * 2) (r1 ++ b2)) as [fs2 r2].
  rewrite process_frames_app, (process_frames_rest_any _ _ _ _ _ _ r1 (concat fs2 ++ r2) P1).
  destruct (process_frames p1 c1 fs2 r2) as [x2 [p2 q2 c2|p2 q2 c2]]; reflexivity.
Qed.

(** If the first message already ends the session, the joined message
    ends it as well, with the same events. *)
Lemma step_bytes_app_finished (s f1 : session B) b1 b2 e1 :
  (0 < chunk_size s)%nat ->
  step s (MBytes b1) = (e1, Finished f1) ->
  fst (step s (MBytes (b1 ++ b2))) = e1 /\
  exists f, snd (step s (MBytes (b1 ++ b2))) = Finished f.
Proof.
  intros Hc E1.
  rewrite step_bytes_unfold in E1 |- *. cbv zeta in *.
  rewrite app_assoc, take_frames_full_app by lia.
  destruct (take_frames (S (length (audio_buffer s ++ b1))) (chunk_size s * 2)
              (audio_buffer s ++ b1)) as [fs1 r1].
  destruct (process_frames (vad_processor s) (frame_count s) fs1 r1)
    as [x1 [p1 q1 c1|p1 q1 c1]] eqn:P1; [discriminate|].
  inversion E1; subst. clear E1.
  destruct (take_frames (S (length (r1 ++ b2))) (chunk_size s * 2) (r1 ++ b2)) as [fs2 r2].
  rewrite process_frames_app.
  destruct (process_frames_err_rest _ _ _ _ (concat fs2 ++ r2) _ _ _ _ P1) as [q' Hq].
  rewrite Hq. split; [reflexivity|]. eexists; reflexivity.
Qed.

Lemma run_bytes_cons (s : session B) b bss :
  run_bytes s (b :: bss) =
  match step s (MBytes b) with
  | (e, Running s1) => let '(e2, o) := run_bytes s1 bss in (e ++ e2, o)
  | (e, Finished s1) => (e, Finished s1)
  end.
Proof. reflexivity. Qed.

(** Binary messages read one after the other send the events of one
    message carrying all their bytes, and if the loop is still running
    after them, it is in the same state. *)
Lemma run_bytes_concat (s : session B) b bss :
  (0 < chunk_size s)%nat ->
  fst (run_bytes s (b :: bss)) = fst (step s (MBytes (concat (b :: bss)))) /\
  (forall s2, snd (run_bytes s (b :: bss)) = Running s2 ->
              snd (step s (MBytes (concat (b :: bss)))) = Running s2).
Proof.
  revert s b; induction bss as [|b' bss IH]; intros s b Hc.
  - rewrite run_bytes_cons. cbn [concat]. rewrite app_nil_r.
    destruct (step s (MBytes b)) as [e [s1|s1]]; cbn [run_bytes fst snd];
      rewrite ?app_nil_r; split; auto; intros s2 Hs; discriminate.
  - rewrite run_bytes_cons.
    change (concat (b :: b' :: bss)) with (b ++ concat (b' :: bss)).
    destruct (step s (MBytes b)) as [e [s1|s1]] eqn:E.
    + destruct (step_bytes_running_same _ _ _ _ E) as [_ Hch].
      destruct (IH s1 b' ltac:(lia)) as [H1 H2].
      rewrite (step_bytes_app_running s s1 b (concat (b' :: bss)) e Hc E).
      destruct (step s1 (MBytes (concat (b' :: bss)))) as [e2' o'].
      destruct (run_bytes s1 (b' :: bss)) as [e2 o]. cbn [fst snd] in *.
      subst e2'. split; [reflexivity|]. exact H2.
    + destruct (step_bytes_app_finished s s1 b (concat (b' :: bss)) e Hc E) as [H1 [f Hf]].
      cbn [fst snd]. split; [symmetry; exact H1|]. intros s2 Hs; discriminate.
Qed.

(** The same, read off the frames: all the frames of the messages are cut
    from the buffered tail followed by all their bytes. *)
Lemma run_bytes_frames (s : session B) b bss :
  (0 < chunk_size s)%nat ->
  let buf := audio_buffer s ++ concat (b :: bss) in
  let '(frames, rest) := take_frames (S (length buf)) (chunk_size s * 2) buf in
  let '(evs, res) := process_frames (vad_processor s) (frame_count s) frames rest in
  fst (run_bytes s (b :: bss)) = evs /\
  (forall s2, snd (run_bytes s (b :: bss)) = Running s2 -> loop_outcome s res = Running s2).
Proof.
  intros Hc. destruct (run_bytes_concat s b bss Hc) as [H1 H2].
  rewrite step_bytes_unfold in H1, H2. cbv zeta in *.
  destruct (take_frames _ _ _) as [frames rest].
  destruct (process_frames _ _ _ _) as [evs res].
  split; [exact H1|exact H2].
Qed.


(** C4 (as the code does it).  A classifier exception on a frame is not
    caught in the frame loop: the events of the frames before it in the
    message have been sent, the frames after it are not processed, the
    receive loop ends and the [finally] clause resets the processor. *)
Theorem classification_failure_ends_session (s : session B) (bytes : list byte)
    (pre post : list (list byte)) (f rest : list byte) (evs : list boundary_event)
    (p : processor B) (fc : nat) :
  take_frames (S (length (audio_buffer s ++ bytes))) (chunk_size s * 2) (audio_buffer s ++ bytes)
    = (pre ++ f :: post, rest) ->
  process_frames (vad_processor s) (frame_count s) pre [] = (evs, LoopOk p [] fc) ->
  get_speech_prob (backend_state p) f = None ->
  exists s', step s (MBytes bytes) = (evs, Finished s') /\
    vad_processor s' = reset_processor p /\ frame_count s' = S fc.
Proof.
  intros Ht Hpre Hf.
  cbn [step]. unfold handle_bytes. rewrite drain_take, Ht, process_frames_app.
  rewrite (process_frames_rest _ _ _ _ _ _ _ Hpre). cbn [process_frames]. unfold process at 1. rewrite Hf.
  cbn [loop_outcome finish]. rewrite app_nil_r.
  eexists. split; [reflexivity|]. split; reflexivity.
Qed.

(** C6.  When the new backend cannot be constructed (unknown name,
    "funasr", or a constructor that raises), a switch message without
    [reset] leaves the session exactly as it was: same backend name,
    processor (counters, parameters, backend state), chunk size, buffered
    bytes and frame count, and the loop goes on. *)
Theorem failed_switch_untouched (s : session B) (cfg : config) (nb : string) :
  cfg_is_speaking cfg <> Some false -> cfg_backend cfg = Some nb ->
  nb <> ""%string -> nb <> backend s ->
  create_vad_processor nb (get_default (cfg_threshold cfg) (1#2))
    (get_default (cfg_min_speech_ms cfg) 250) (get_default (cfg_min_silence_ms cfg) 500) = None ->
  cfg_reset cfg <> Some true ->
  step s (MText (Some cfg)) = ([], Running s).
Proof.
  intros Hsp Hb Hne Hdiff Hc Hr.
  assert (Hsw : switch_requested s cfg = true).
  { unfold switch_requested. rewrite Hb.
    apply String.eqb_neq in Hne, Hdiff. rewrite Hne, Hdiff. reflexivity. }
  cbn [step]. rewrite handle_text_not_finished by exact Hsp.
  rewrite Hsw, Hb. cbn [get_default]. rewrite Hc.
  destruct (cfg_reset cfg) as [[|]|]; [congruence|reflexivity|reflexivity].
Qed.


End SessionProps.

(** ** Concrete inputs *)

Lemma speech_frame_hysteresis_witness :
  let c := init_core (1#2) 1 500 in
  (is_speaking c = false /\ speech_samples c = 0 /\ 0 < 1 /\
   Forall (high c) (repeat (9#10) 15) /\
   Z.of_nat (length (repeat (9#10) 15)) * 1 = min_speech_samples c - 1 /\
   Forall (low c) [1#10; 1#10] /\ high c (9#10)) /\
  count_starts (snd (run_core c 1 (repeat (9#10) 15 ++ [1#10; 1#10]))) = 0%nat /\
  count_starts (snd (run_core c 1 (repeat (9#10) 15 ++ (9#10) :: [1#10; 1#10]))) = 1%nat.
Proof.
  intros c.
  assert (H1 : is_speaking c = false) by reflexivity.
  assert (H2 : speech_samples c = 0) by reflexivity.
  assert (H3 : 0 < 1) by lia.
  assert (H4 : Forall (high c) (repeat (9#10) 15)) by (vm_compute; repeat constructor).
  assert (H5 : Z.of_nat (length (repeat (9#10) 15)) * 1 = min_speech_samples c - 1)
    by reflexivity.
  assert (H6 : Forall (low c) [1#10; 1#10]) by (vm_compute; repeat constructor).
  assert (H7 : high c (9#10)) by reflexivity.
  destruct (proj2 speech_frame_hysteresis c 1 (repeat (9#10) 15) [1#10; 1#10] H1 H2 H3 H4 H5 H6)
    as [A B].
  split; [repeat split; assumption|]. split; [exact A|exact (B (9#10) H7)].
Defined.

Lemma no_duplicate_events_witness :
  let c1 := fst (run_core (init_core (1#2) 32 500) 512 [9#10]) in
  let c0 := init_core (1#2) 32 500 in
  (is_speaking c1 = true /\ Forall (high c1) [9#10; 1#1; 7#10] /\
   is_speaking c0 = false /\ Forall (low c0) [1#10; 0%Q; 2#5]) /\
  (count_starts (snd (run_core c1 512 [9#10; 1#1; 7#10])) = 0%nat /\
   is_speaking (fst (run_core c1 512 [9#10; 1#1; 7#10])) = true) /\
  (count_ends (snd (run_core c0 512 [1#10; 0%Q; 2#5])) = 0%nat /\
   is_speaking (fst (run_core c0 512 [1#10; 0%Q; 2#5])) = false) /\
  (event (snd (core_process c0 (9#10) 512)) <> None <->
   is_speaking (fst (core_process c0 (9#10) 512)) <> is_speaking c0).
Proof.
  intros c1 c0.
  assert (H1 : is_speaking c1 = true) by reflexivity.
  assert (H2 : Forall (high c1) [9#10; 1#1; 7#10]) by (vm_compute; repeat constructor).
  assert (H3 : is_speaking c0 = false) by reflexivity.
  assert (H4 : Forall (low c0) [1#10; 0%Q; 2#5]) by (vm_compute; repeat constructor).
  destruct no_duplicate_events as (A & B & C).
  split; [repeat split; assumption|].
  split; [exact (A c1 512 _ H1 H2)|]. split; [exact (B c0 512 _ H3 H4)|]. exact (C c0 (9#10) 512).
Defined.

Lemma frame_alignment_witness :
  (0 < 4)%nat /\
  (let data := concat [[x01; x02; x03]; [x04; x05; x06; x07; x08; x09]] in
   let '(frames, rest) := push_all 4 [] [[x01; x02; x03]; [x04; x05; x06; x07; x08; x09]] in
   frames = slice_direct 4 data /\ rest = tail_direct 4 data /\
   length frames = (length data / 4)%nat /\
   Forall (fun f => length f = 4%nat) frames /\
   (length rest < 4)%nat /\ concat frames ++ rest = data).
Proof.
  split; [lia|].
  exact (frame_alignment 4 [[x01; x02; x03]; [x04; x05; x06; x07; x08; x09]] ltac:(lia)).
Defined.



(** C4, the claim as stated fails: on "silero_onnx" (1024-byte frames) the
    classifier raises on the first of two frames; the session leaves the
    receive loop instead of going on, and the second frame, which would
    have classified at 0.9, is never processed. *)
Lemma classification_failure_counterexample :
  let s0 := scripted_session "silero_onnx" [None; Some (9#10)] [] in
  let '(evs, o) := step s0 (MBytes (repeat x00 2048)) in
  evs = [] /\
  match o with
  | Finished s1 => frame_count s1 = 1%nat /\ backend_state (vad_processor s1) = [None; Some (9#10)]
  | Running _ => False
  end.
Proof. vm_compute. repeat split; reflexivity. Qed.

Lemma classification_failure_ends_session_witness :
  let s0 := scripted_session "silero_onnx" [Some (9#10); None] [] in
  let fr := repeat x00 1024 in
  let p1 := {| vad_kind := "silero_onnx"%string;
               core := fst (core_process (init_core (1#2) 250 500) (9#10) 512);
               backend_state := [None] |} in
  (take_frames (S (length (audio_buffer s0 ++ repeat x00 2048))) (chunk_size s0 * 2)
     (audio_buffer s0 ++ repeat x00 2048) = ([fr] ++ fr :: [], []) /\
   process_frames (vad_processor s0) (frame_count s0) [fr] [] = ([], LoopOk p1 [] 1) /\
   get_speech_prob (backend_state p1) fr = None) /\
  exists s', step s0 (MBytes (repeat x00 2048)) = ([], Finished s') /\
    vad_processor s' = reset_processor p1 /\ frame_count s' = 2%nat.
Proof.
  intros s0 fr p1.
  assert (H1 : take_frames (S (length (audio_buffer s0 ++ repeat x00 2048))) (chunk_size s0 * 2)
     (audio_buffer s0 ++ repeat x00 2048) = ([fr] ++ fr :: [], [])) by (vm_compute; reflexivity).
  assert (H2 : process_frames (vad_processor s0) (frame_count s0) [fr] [] = ([], LoopOk p1 [] 1))
    by (vm_compute; reflexivity).
  assert (H3 : get_speech_prob (backend_state p1) fr = None) by reflexivity.
  split; [repeat split; assumption|].
  exact (classification_failure_ends_session s0 (repeat x00 2048) [fr] [] fr [] [] p1 1 H1 H2 H3).
Defined.

Lemma failed_switch_untouched_witness :
  let s0 := scripted_session "ten" [Some (9#10)] [x01; x02] in
  let cfg := {| cfg_is_speaking := None; cfg_backend := Some "funasr"%string;
                cfg_threshold := Some (3#5); cfg_min_speech_ms := None;
                cfg_min_silence_ms := None; cfg_reset := None |} in
  (cfg_is_speaking cfg <> Some false /\ cfg_backend cfg = Some "funasr"%string /\
   "funasr"%string <> ""%string /\ "funasr"%string <> backend s0 /\
   create_vad_processor "funasr" (get_default (cfg_threshold cfg) (1#2))
     (get_default (cfg_min_speech_ms cfg) 250) (get_default (cfg_min_silence_ms cfg) 500) = None /\
   cfg_reset cfg <> Some true) /\
  step s0 (MText (Some cfg)) = ([], Running s0).
Proof.
  intros s0 cfg.
  assert (H1 : cfg_is_speaking cfg <> Some false) by discriminate.
  assert (H2 : cfg_backend cfg = Some "funasr"%string) by reflexivity.
  assert (H3 : "funasr"%string <> ""%string) by discriminate.
  assert (H4 : "funasr"%string <> backend s0) by discriminate.
  assert (H5 : create_vad_processor "funasr" (get_default (cfg_threshold cfg) (1#2))
     (get_default (cfg_min_speech_ms cfg) 250) (get_default (cfg_min_silence_ms cfg) 500) = None)
    by reflexivity.
  assert (H6 : cfg_reset cfg <> Some true) by discriminate.
  split; [repeat split; assumption|].
  exact (failed_switch_untouched s0 cfg "funasr" H1 H2 H3 H4 H5 H6).
Defined.


(** * Further properties of the code *)

(** ** The boundary state machine *)

Lemma core_process_event c p n :
  match event (snd (core_process c p n)) with
  | None => is_speaking (fst (core_process c p n)) = is_speaking c
  | Some speech_start => is_speaking c = false /\ is_speaking (fst (core_process c p n)) = true
  | Some speech_end => is_speaking c = true /\ is_speaking (fst (core_process c p n)) = false
  end.
Proof.
  unfold core_process.
  destruct (Qle_bool (threshold c) p), (is_speaking c);
  [| destruct (min_speech_samples c <=? speech_samples c + n)
   | destruct (min_silence_samples c <=? silence_samples c + n) |];
  simpl; auto.
Qed.

Lemma alternating_step c p n evs :
  alternating (is_speaking (fst (core_process c p n))) evs = true ->
  alternating (is_speaking c)
    (match event (snd (core_process c p n)) with Some e => [e] | None => [] end ++ evs) = true.
Proof.
  pose proof (core_process_event c p n) as He.
  destruct (event (snd (core_process c p n))) as [[|]|]; simpl.
  - destruct He as [H1 H2]. rewrite H1, H2. auto.
  - destruct He as [H1 H2]. rewrite H1, H2. auto.
  - rewrite He. auto.
Qed.

(** Whatever the probabilities, the events of a run alternate: never two
    [speech_start] without a [speech_end] between them, and the first
    event is a start exactly when the processor is [Silent]. *)
Theorem events_alternate (c : vad_core) (n : Z) (ps : list Q) :
  alternating (is_speaking c) (kinds_of (snd (run_core c n ps))) = true.
Proof.
  assert (G : forall c0, alternating (is_speaking (fst (run_core c0 n ps))) [] = true ->
                alternating (is_speaking c0) (kinds_of (snd (run_core c0 n ps))) = true).
  { induction ps as [|p ps IH]; intros c0 _; [reflexivity|].
    cbn [run_core].
    pose proof (alternating_step c0 p n) as Hs.
    destruct (core_process c0 p n) as [c1 r] eqn:E. simpl in Hs.
    specialize (IH c1 eq_refl).
    destruct (run_core c1 n ps) as [c2 rs]. simpl in *.
    apply Hs. exact IH. }
  apply G. reflexivity.
Qed.

(** While the run is [Speaking], [speech_samples] is at least
    [min_speech_samples] (frames of non-negative size, no parameter update
    in between). *)
Theorem speaking_has_min_speech (c : vad_core) (n : Z) (ps : list Q) :
  0 <= n ->
  (is_speaking c = true -> min_speech_samples c <= speech_samples c) ->
  let c' := fst (run_core c n ps) in
  is_speaking c' = true -> min_speech_samples c' <= speech_samples c'.
Proof.
  intros Hn. revert c; induction ps as [|p ps IH]; intros c Hinv; [exact Hinv|].
  cbn [run_core].
  assert (Hstep : is_speaking (fst (core_process c p n)) = true ->
                  min_speech_samples (fst (core_process c p n)) <=
                  speech_samples (fst (core_process c p n))).
  { unfold core_process.
    destruct (Qle_bool (threshold c) p), (is_speaking c) eqn:Hs;
    [| destruct (min_speech_samples c <=? speech_samples c + n) eqn:Hb
     | destruct (min_silence_samples c <=? silence_samples c + n) eqn:Hb |];
    simpl; intros Ht; try discriminate;
    try (apply Z.leb_le in Hb); try (specialize (Hinv eq_refl)); lia. }
  destruct (core_process c p n) as [c1 r] eqn:E. simpl in Hstep.
  specialize (IH c1 Hstep).
  destruct (run_core c1 n ps) as [c2 rs]. exact IH.
Qed.

Lemma speaking_has_min_speech_witness :
  0 <= 512 /\
  (is_speaking (init_core (1#2) 250 500) = true ->
     min_speech_samples (init_core (1#2) 250 500) <= speech_samples (init_core (1#2) 250 500)) /\
  (let c' := fst (run_core (init_core (1#2) 250 500) 512 (repeat (9#10) 9 ++ [1#10; 1#5])) in
   is_speaking c' = true -> min_speech_samples c' <= speech_samples c').
Proof.
  assert (H1 : 0 <= 512) by lia.
  assert (H2 : is_speaking (init_core (1#2) 250 500) = true ->
     min_speech_samples (init_core (1#2) 250 500) <= speech_samples (init_core (1#2) 250 500))
    by discriminate.
  split; [exact H1|]. split; [exact H2|].
  exact (speaking_has_min_speech _ 512 _ H1 H2).
Defined.

(** ** The session loop *)

Section SessionProps2.
Context {B : Type} `{VADBackend B}.

(** The chunk size always matches the backend: [chunk_size] is only set
    together with [backend], to [get_chunk_size] of it. *)
Theorem chunk_size_matches_backend (s : session B) (m : message) :
  chunk_size s = get_chunk_size (backend s) ->
  match snd (step s m) with
  | Running s' | Finished s' => chunk_size s' = get_chunk_size (backend s')
  end.
Proof.
  intros Hc. destruct m as [[cfg|]| |bytes].
  - cbn [step snd]. unfold handle_text.
    destruct (cfg_is_speaking cfg) as [[|]|];
    [| exact Hc |];
    (destruct (switch_requested s cfg);
     [destruct (create_vad_processor _ _ _ _); [|]|];
     destruct (cfg_reset cfg) as [[|]|]; exact Hc || reflexivity).
  - exact Hc.
  - exact Hc.
  - rewrite step_bytes_unfold. cbv zeta.
    destruct (take_frames _ _ _) as [frames rest].
    destruct (process_frames _ _ _ _) as [evs [p' buf' fc'|p' buf' fc']]; exact Hc.
Qed.

(** After a binary message, unless a classifier error ended the session,
    the buffer holds the tail of the accumulated bytes after the last
    complete frame (less than one frame), and [frame_count] has grown by
    the number of complete frames. *)
Theorem bytes_message_leaves_short_tail (s : session B) bytes evs s' :
  (0 < chunk_size s)%nat ->
  step s (MBytes bytes) = (evs, Running s') ->
  let buf := audio_buffer s ++ bytes in
  audio_buffer s' = tail_direct (chunk_size s * 2) buf /\
  (length (audio_buffer s') < chunk_size s' * 2)%nat /\
  frame_count s' = (frame_count s + length buf / (chunk_size s * 2))%nat /\
  backend s' = backend s /\ chunk_size s' = chunk_size s.
Proof.
  intros Hc E. rewrite step_bytes_unfold in E. cbv zeta in *.
  pose proof (take_frames_shape (S (length (audio_buffer s ++ bytes))) (chunk_size s * 2)
                (audio_buffer s ++ bytes) ltac:(lia) ltac:(lia)) as [_ Hsh].
  rewrite (take_frames_direct (chunk_size s * 2) (audio_buffer s ++ bytes)) in E, Hsh
    by lia.
  simpl in Hsh.
  destruct (process_frames _ _ _ _) as [e [p' buf' fc'|p' buf' fc']] eqn:Ep;
    [|discriminate].
  destruct (process_frames_ok _ _ _ _ _ _ _ _ Ep) as [Hr Hf].
  unfold slice_direct in Hf. rewrite length_map, length_seq in Hf.
  inversion E; subst. simpl.
  repeat split; auto.
Qed.

(** A binary message that does not complete a frame only appends to the
    buffer: no frame is classified and nothing is sent. *)
Theorem short_bytes_message_buffers (s : session B) bytes :
  (length (audio_buffer s ++ bytes) < chunk_size s * 2)%nat ->
  step s (MBytes bytes) =
  ([], Running {| backend := backend s; chunk_size := chunk_size s;
                  vad_processor := vad_processor s;
                  audio_buffer := audio_buffer s ++ bytes; frame_count := frame_count s |}).
Proof.
  intros Hl. rewrite step_bytes_unfold. cbv zeta.
  rewrite take_frames_S.
  assert (Hb : Nat.leb (chunk_size s * 2) (length (audio_buffer s ++ bytes)) = false)
    by (apply Nat.leb_gt; lia).
  rewrite Hb. reflexivity.
Qed.

(** Splitting the audio differently over binary messages changes nothing.
    When the first of two binary messages leaves the loop running, one
    message carrying both sends the events of the first followed by those
    of the second, and ends where the second leaves the loop, running or
    not (a classifier error in the second ends both the same way).  When
    the first already ends the loop, the joined message ends it too, with
    the same events. *)
Theorem bytes_messages_compose (s : session B) b1 b2 :
  (0 < chunk_size s)%nat ->
  match step s (MBytes b1) with
  | (e1, Running s1) =>
      step s (MBytes (b1 ++ b2)) = let '(e2, o) := step s1 (MBytes b2) in (e1 ++ e2, o)
  | (e1, Finished _) =>
      fst (step s (MBytes (b1 ++ b2))) = e1 /\
      exists f, snd (step s (MBytes (b1 ++ b2))) = Finished f
  end.
Proof.
  intros Hc.
  destruct (step s (MBytes b1)) as [e1 [s1|f1]] eqn:E.
  - exact (step_bytes_app_running s s1 b1 b2 e1 Hc E).
  - exact (step_bytes_app_finished s f1 b1 b2 e1 Hc E).
Qed.

Lemma emit_kinds (r : vad_result) :
  map boundary_kind (emit r) = match event r with Some e => [e] | None => [] end.
Proof. unfold emit. destruct (event r) as [[|]|]; reflexivity. Qed.

Lemma process_frames_alternate (p : processor B) fc frames rest :
  alternating (is_speaking (core p))
    (map boundary_kind (fst (process_frames p fc frames rest))) = true.
Proof.
  revert p fc; induction frames as [|f fs IH]; intros p fc; [reflexivity|].
  cbn [process_frames]. destruct (process p f) as [[p' r]|] eqn:Ep; [|reflexivity].
  specialize (IH p' (S fc)).
  destruct (process_frames p' (S fc) fs rest) as [e res]. cbn [fst] in *.
  unfold process in Ep.
  destruct (get_speech_prob (backend_state p) f) as [[prob b']|]; [|discriminate].
  pose proof (alternating_step (core p) prob (Z.of_nat (length f / 2)) (map boundary_kind e)) as A.
  destruct (core_process (core p) prob (Z.of_nat (length f / 2))) as [c' r'].
  inversion Ep; subst. cbn [fst snd core] in *.
  rewrite map_app, emit_kinds. apply A. exact IH.
Qed.

(** Within one message the events sent alternate, starting from the
    processor's state when the message arrives: a [speech_start] only while
    silent, a [speech_end] only while speaking, never two of a kind in a row. *)
Theorem session_events_alternate (s : session B) (m : message) :
  alternating (is_speaking (core (vad_processor s))) (map boundary_kind (fst (step s m))) = true.
Proof.
  destruct m as [[cfg|]| |bytes]; [reflexivity|reflexivity|reflexivity|].
  rewrite step_bytes_unfold. cbv zeta.
  destruct (take_frames _ _ _) as [frames rest].
  pose proof (process_frames_alternate (vad_processor s) (frame_count s) frames rest) as A.
  destruct (process_frames _ _ _ _). exact A.
Qed.

(** A text message carrying a JSON object with none of the recognised keys
    (or only with [null] values for them) leaves the session exactly as it
    was: it goes to [update_params] with no parameter, which changes
    nothing. *)
Theorem text_message_without_keys_no_op (s : session B) :
  step s (MText (Some empty_config)) = ([], Running s).
Proof.
  destruct s as [bk ch [kd [thr sr ms ml sp ss sl] st] buf fc]. reflexivity.
Qed.

(** Naming the current backend, or an empty one, is not a switch: the
    message acts as if it had no [backend] key. *)
Theorem same_backend_not_a_switch (s : session B) (cfg : config) :
  cfg_backend cfg = Some (backend s) \/ cfg_backend cfg = Some ""%string ->
  step s (MText (Some cfg)) = step s (MText (Some (drop_backend cfg))).
Proof.
  intros Hb. cbn [step]. unfold handle_text, switch_requested. cbn [cfg_is_speaking cfg_backend
    drop_backend cfg_threshold cfg_min_speech_ms cfg_min_silence_ms cfg_reset].
  assert (Hs : match cfg_backend cfg with
               | Some nb => negb (String.eqb nb "") && negb (String.eqb nb (backend s))
               | None => false end = false).
  { destruct Hb as [Hb|Hb]; rewrite Hb; rewrite String.eqb_refl;
    [apply andb_false_r | reflexivity]. }
  rewrite Hs. reflexivity.
Qed.


(** With a backend whose reset is idempotent, a [reset] message leaves the
    processor silent with both counters at zero and its parameters, buffer
    and frame count unchanged, and a second [reset] message changes nothing
    more. *)
Theorem reset_message_idempotent (s : session B) :
  (forall b : B, backend_reset (backend_reset b) = backend_reset b) ->
  exists s1, step s (MText (Some reset_config)) = ([], Running s1) /\
    step s1 (MText (Some reset_config)) = ([], Running s1) /\
    let c := core (vad_processor s) in
    let c1 := core (vad_processor s1) in
    is_speaking c1 = false /\ speech_samples c1 = 0 /\ silence_samples c1 = 0 /\
    threshold c1 = threshold c /\ min_speech_samples c1 = min_speech_samples c /\
    min_silence_samples c1 = min_silence_samples c /\
    backend s1 = backend s /\ audio_buffer s1 = audio_buffer s /\ frame_count s1 = frame_count s.
Proof.
  intros Hid.
  destruct s as [bk ch [kd [thr sr ms ml sp ss sl] st] buf fc].
  eexists. split; [reflexivity|]. split.
  - cbv. rewrite Hid. reflexivity.
  - cbv. repeat split.
Qed.

End SessionProps2.

(** ** WebRTC frame selection and smoothing *)

(** Every frame handed to [is_speech] is 10, 20 or 30 ms long, by the
    code's own integer duration [len * 1000 // 16000]. *)
Theorem webrtc_frame_duration (a : list Z) :
  In (Z.of_nat (length (webrtc_select a)) * 1000 / 16000) [10; 20; 30].
Proof.
  unfold webrtc_select.
  destruct (existsb (Z.eqb (Z.of_nat (length a) * 1000 / 16000)) [10; 20; 30]) eqn:Hd.
  - apply existsb_exists in Hd as [x [Hx Heq]]. apply Z.eqb_eq in Heq. rewrite Heq. exact Hx.
  - destruct (Nat.leb 480 (length a)) eqn:H480.
    + apply Nat.leb_le in H480. rewrite length_firstn, Nat.min_l by exact H480.
      simpl. auto.
    + destruct (Nat.ltb (length a) 160) eqn:H160.
      * apply Nat.ltb_lt in H160.
        rewrite length_app, repeat_length, Nat.add_sub_assoc, Nat.add_comm, Nat.add_sub
          by lia.
        simpl. auto.
      * apply Nat.ltb_ge in H160. rewrite length_firstn, Nat.min_l by exact H160.
        simpl. auto.
Qed.

(** The selected frame never reorders or alters samples: it agrees with
    the input on their common prefix, and whatever it has beyond the input
    is zero padding. *)
Theorem webrtc_select_prefix_or_pad (a : list Z) :
  let out := webrtc_select a in
  firstn (length a) out = firstn (length out) a /\
  skipn (length a) out = repeat 0 (length out - length a).
Proof.
  cbv zeta. unfold webrtc_select.
  destruct (existsb _ _).
  - rewrite skipn_all, Nat.sub_diag. split; reflexivity.
  - destruct (Nat.leb 480 (length a)) eqn:H480.
    + apply Nat.leb_le in H480.
      rewrite length_firstn, Nat.min_l by exact H480.
      rewrite firstn_firstn, Nat.min_r by exact H480.
      rewrite skipn_all2 by (rewrite length_firstn; lia).
      replace (480 - length a)%nat with 0%nat by lia. split; reflexivity.
    + destruct (Nat.ltb (length a) 160) eqn:H160.
      * apply Nat.ltb_lt in H160.
        rewrite length_app, repeat_length.
        rewrite firstn_app, Nat.sub_diag, firstn_all, firstn_O, app_nil_r.
        rewrite skipn_app, skipn_all, Nat.sub_diag, skipn_O.
        rewrite firstn_all2 by lia.
        replace (length a + (160 - length a) - length a)%nat with (160 - length a)%nat by lia.
        split; reflexivity.
      * apply Nat.ltb_ge in H160.
        rewrite length_firstn, Nat.min_l by exact H160.
        rewrite firstn_firstn, Nat.min_r by exact H160.
        rewrite skipn_all2 by (rewrite length_firstn; lia).
        replace (160 - length a)%nat with 0%nat by lia. split; reflexivity.
Qed.

Lemma q_sum_bounds (l : list Q) :
  verdicts l -> (0 <= q_sum l <= inject_Z (Z.of_nat (length l)))%Q.
Proof.
  induction 1 as [|x l Hx _ [IH1 IH2]]; [simpl; split; apply Qle_refl|].
  cbn [q_sum fold_right length]. fold (q_sum l).
  rewrite Nat2Z.inj_succ, <- Z.add_1_l, inject_Z_plus.
  change (inject_Z 1) with 1%Q.
  destruct Hx as [-> | ->]; split; lra.
Qed.

Lemma q_avg_bounds (l : list Q) :
  verdicts l -> l <> [] ->
  (0 <= Qdiv (q_sum l) (inject_Z (Z.of_nat (length l))) <= 1)%Q.
Proof.
  intros Hv Hne. destruct (q_sum_bounds l Hv) as [H1 H2].
  assert (Hpos : (0 < inject_Z (Z.of_nat (length l)))%Q).
  { destruct l as [|x l]; [congruence|].
    change 0%Q with (inject_Z 0). rewrite <- Zlt_Qlt. cbn [length]. lia. }
  split.
  - apply Qle_shift_div_l; [exact Hpos|]. rewrite Qmult_0_l. exact H1.
  - apply Qle_shift_div_r; [exact Hpos|]. rewrite Qmult_1_l. exact H2.
Qed.

(** The smoothing history stays a list of at most five 0/1 verdicts, and
    the probability returned always lies in [0, 1], also when [is_speech]
    raises and the last value (or 0.0) is returned instead. *)
Theorem webrtc_history_invariant (is_speech : list Z -> option bool) (h : list Q) (a : list Z) :
  verdicts h -> (length h <= webrtc_history_size)%nat ->
  let '(p, h') := webrtc_get_speech_prob is_speech h a in
  verdicts h' /\ (length h' <= webrtc_history_size)%nat /\ (0 <= p <= 1)%Q.
Proof.
  intros Hv Hl. unfold webrtc_get_speech_prob.
  destruct (is_speech (webrtc_select a)) as [v|].
  - remember (h ++ [if v then 1%Q else 0%Q]) as h1 eqn:Eh1.
    assert (Hv1 : verdicts h1).
    { subst h1. apply Forall_app; split; [exact Hv|]. constructor; [|constructor].
      destruct v; auto. }
    assert (Hl1 : length h1 = S (length h)) by (subst h1; rewrite length_app; simpl; lia).
    clear Eh1.
    remember (if Nat.ltb webrtc_history_size (length h1) then tl h1 else h1) as h2 eqn:Eh2.
    assert (Hv2 : verdicts h2 /\ (length h2 <= webrtc_history_size)%nat /\ h2 <> []).
    { subst h2. unfold webrtc_history_size in *.
      destruct h1 as [|x t]; [simpl in Hl1; lia|].
      destruct (Nat.ltb 5 (length (x :: t))) eqn:Hlt.
      - apply Nat.ltb_lt in Hlt. cbn [tl length] in Hl1, Hlt |- *.
        inversion Hv1 as [|? ? _ Ht]. repeat split; [exact Ht|lia|].
        destruct t; [simpl in *; lia|discriminate].
      - apply Nat.ltb_ge in Hlt. repeat split; [exact Hv1|exact Hlt|discriminate]. }
    destruct Hv2 as [Hv2 [Hl2 Hne]].
    repeat split; try assumption; apply (q_avg_bounds h2 Hv2 Hne).
  - repeat split; try assumption;
    (assert (Hr : verdicts (rev h)) by (apply Forall_rev; exact Hv);
     destruct (rev h) as [|x t]; [lra|];
     inversion Hr as [|? ? [-> | ->] _]; lra).
Qed.

(** While the history holds at most five verdicts, a successful call keeps
    exactly the last five of them (or all, if fewer), the new one last. *)
Theorem webrtc_history_last_five (is_speech : list Z -> option bool) (h : list Q) (a : list Z)
    (v : bool) :
  is_speech (webrtc_select a) = Some v -> (length h <= webrtc_history_size)%nat ->
  snd (webrtc_get_speech_prob is_speech h a) =
  skipn (S (length h) - webrtc_history_size) (h ++ [if v then 1%Q else 0%Q]).
Proof.
  intros Hs Hl. unfold webrtc_get_speech_prob. rewrite Hs. cbn [snd].
  rewrite length_app. cbn [length]. unfold webrtc_history_size in *.
  destruct (Nat.ltb 5 (length h + 1)) eqn:Hlt.
  - apply Nat.ltb_lt in Hlt. replace (S (length h) - 5)%nat with 1%nat by lia.
    destruct (h ++ _); reflexivity.
  - apply Nat.ltb_ge in Hlt. replace (S (length h) - 5)%nat with 0%nat by lia.
    reflexivity.
Qed.

(** ** Concrete runs of the further properties *)

Lemma chunk_size_matches_backend_witness :
  let s0 := scripted_session "ten" [] [] in
  chunk_size s0 = get_chunk_size (backend s0) /\
  match snd (step s0 (MText (Some switch_to_webrtc))) with
  | Running s' | Finished s' => chunk_size s' = get_chunk_size (backend s')
  end.
Proof.
  intros s0.
  assert (Hc : chunk_size s0 = get_chunk_size (backend s0)) by reflexivity.
  split; [exact Hc|].
  exact (chunk_size_matches_backend s0 (MText (Some switch_to_webrtc)) Hc).
Defined.

Lemma bytes_message_leaves_short_tail_witness :
  let s0 := scripted_session "ten" [Some (9#10); Some (1#10)] [Byte.x01] in
  let bs := repeat Byte.x00 1100 in
  exists evs s', (0 < chunk_size s0)%nat /\ step s0 (MBytes bs) = (evs, Running s') /\
  let buf := audio_buffer s0 ++ bs in
  audio_buffer s' = tail_direct (chunk_size s0 * 2) buf /\
  (length (audio_buffer s') < chunk_size s' * 2)%nat /\
  frame_count s' = (frame_count s0 + length buf / (chunk_size s0 * 2))%nat /\
  backend s' = backend s0 /\ chunk_size s' = chunk_size s0.
Proof.
  intros s0 bs.
  assert (Hc : (0 < chunk_size s0)%nat) by (apply Nat.ltb_lt; reflexivity).
  destruct (step s0 (MBytes bs)) as [evs o] eqn:E.
  pose proof E as E'. vm_compute in E'. injection E' as _ Ho. subst o.
  eexists; eexists; split; [exact Hc|]; split; [reflexivity|].
  exact (bytes_message_leaves_short_tail s0 bs _ _ Hc E).
Defined.

Lemma short_bytes_message_buffers_witness :
  let s0 := scripted_session "webrtc" [] [Byte.x01] in
  (length (audio_buffer s0 ++ [Byte.x02; Byte.x03]) < chunk_size s0 * 2)%nat /\
  step s0 (MBytes [Byte.x02; Byte.x03]) =
  ([], Running {| backend := backend s0; chunk_size := chunk_size s0;
                  vad_processor := vad_processor s0;
                  audio_buffer := audio_buffer s0 ++ [Byte.x02; Byte.x03];
                  frame_count := frame_count s0 |}).
Proof.
  intros s0.
  assert (Hl : (length (audio_buffer s0 ++ [Byte.x02; Byte.x03]) < chunk_size s0 * 2)%nat)
    by (apply Nat.ltb_lt; reflexivity).
  split; [exact Hl|]. exact (short_bytes_message_buffers s0 _ Hl).
Defined.

Lemma bytes_messages_compose_witness :
  let s0 := scripted_session "ten" [Some (9#10); Some (9#10); None] [] in
  let b1 := repeat Byte.x00 700 in
  let b2 := repeat Byte.x00 900 in
  (0 < chunk_size s0)%nat /\
  match step s0 (MBytes b1) with
  | (e1, Running s1) =>
      step s0 (MBytes (b1 ++ b2)) = let '(e2, o) := step s1 (MBytes b2) in (e1 ++ e2, o)
  | (e1, Finished _) =>
      fst (step s0 (MBytes (b1 ++ b2))) = e1 /\
      exists f, snd (step s0 (MBytes (b1 ++ b2))) = Finished f
  end.
Proof.
  intros s0 b1 b2.
  assert (Hc : (0 < chunk_size s0)%nat) by (apply Nat.ltb_lt; reflexivity).
  split; [exact Hc|]. exact (bytes_messages_compose s0 b1 b2 Hc).
Defined.

Lemma same_backend_not_a_switch_witness :
  let s0 := scripted_session "ten" [] [] in
  let cfg := {| cfg_is_speaking := None; cfg_backend := Some "ten"%string;
                cfg_threshold := Some (7#10); cfg_min_speech_ms := None;
                cfg_min_silence_ms := None; cfg_reset := Some true |} in
  (cfg_backend cfg = Some (backend s0) \/ cfg_backend cfg = Some ""%string) /\
  step s0 (MText (Some cfg)) = step s0 (MText (Some (drop_backend cfg))).
Proof.
  intros s0 cfg.
  assert (Hb : cfg_backend cfg = Some (backend s0) \/ cfg_backend cfg = Some ""%string)
    by (left; reflexivity).
  split; [exact Hb|]. exact (same_backend_not_a_switch s0 cfg Hb).
Defined.


Lemma reset_message_idempotent_witness :
  let s0 := {| backend := "ten"%string; chunk_size := get_chunk_size "ten";
               vad_processor := {| vad_kind := "ten"%string;
                                   core := fst (run_core (init_core (1#2) 32 32) 512 [9#10]);
                                   backend_state := [Some (1#3)] |};
               audio_buffer := [Byte.x05]; frame_count := 4 |} in
  (forall b : list (option Q), backend_reset (backend_reset b) = backend_reset b) /\
  exists s1, step s0 (MText (Some reset_config)) = ([], Running s1) /\
    step s1 (MText (Some reset_config)) = ([], Running s1) /\
    let c := core (vad_processor s0) in
    let c1 := core (vad_processor s1) in
    is_speaking c1 = false /\ speech_samples c1 = 0 /\ silence_samples c1 = 0 /\
    threshold c1 = threshold c /\ min_speech_samples c1 = min_speech_samples c /\
    min_silence_samples c1 = min_silence_samples c /\
    backend s1 = backend s0 /\ audio_buffer s1 = audio_buffer s0 /\ frame_count s1 = frame_count s0.
Proof.
  intros s0.
  assert (Hid : forall b : list (option Q), backend_reset (backend_reset b) = backend_reset b)
    by (intros b; reflexivity).
  split; [exact Hid|]. exact (reset_message_idempotent s0 Hid).
Defined.

Lemma webrtc_history_invariant_witness :
  let h := [1%Q; 0%Q; 0%Q; 1%Q; 1%Q] in
  (verdicts h /\ (length h <= webrtc_history_size)%nat) /\
  (let '(p, h') := webrtc_get_speech_prob strict_is_speech h (repeat 0 700) in
   verdicts h' /\ (length h' <= webrtc_history_size)%nat /\ (0 <= p <= 1)%Q).
Proof.
  intros h.
  assert (Hv : verdicts h) by (repeat constructor; auto).
  assert (Hl : (length h <= webrtc_history_size)%nat) by (apply Nat.leb_le; reflexivity).
  split; [split; assumption|].
  exact (webrtc_history_invariant strict_is_speech h (repeat 0 700) Hv Hl).
Defined.

Lemma webrtc_history_last_five_witness :
  let h := [1%Q; 0%Q; 0%Q; 1%Q; 0%Q] in
  (strict_is_speech (webrtc_select (repeat 0 700)) = Some true /\
   (length h <= webrtc_history_size)%nat) /\
  snd (webrtc_get_speech_prob strict_is_speech h (repeat 0 700)) =
  skipn (S (length h) - webrtc_history_size) (h ++ [1%Q]).
Proof.
  intros h.
  assert (Hs : strict_is_speech (webrtc_select (repeat 0 700)) = Some true) by reflexivity.
  assert (Hl : (length h <= webrtc_history_size)%nat) by (apply Nat.leb_le; reflexivity).
  split; [split; assumption|].
  exact (webrtc_history_last_five strict_is_speech h (repeat 0 700) true Hs Hl).
Defined.
